(** * Automatic Channel Selection (src/ap/acs.c): a shallow embedding

    The development follows acs.c function by function.

    - C integers are [Z].  The quantities that acs.c computes on integers
      are frequencies in MHz, small loop counters and return codes; signed
      overflow is undefined in C and none of them comes near it, so no
      wrap-around is written.
    - [unsigned int filled] and [int flag] are bit sets: tests are
      [Z.land], updates are [Z.lor].
    - A [struct dl_list] of surveys is the [list] of its elements in list
      order; the channel array of a mode is a [list] and a pointer into it
      is the index of the element.
    - [long double] arithmetic is an interface ([LongDouble]): the code is
      translated once, for any implementation of the operations.  The
      statements about the order of scores are proved for any
      implementation that satisfies the laws of [LongDoubleOrder] and
      [LongDoubleArith], which hold in IEEE 754 arithmetic with its
      infinities and NaN.  Two implementations carry the examples: the
      real numbers, which have no rounding, infinity or NaN, and
      IEEE 754 binary64, for which the laws are proved from the
      specification of the primitive floating-point operations.
    - Constants and field types of headers that are not part of the
      sources (drivers/driver.h, ap/hostapd.h, ap/ap_config.h,
      common/defs.h, common/ieee802_11_defs.h) are the fields of
      [headers]; the functions acs.c calls outside itself are the fields
      of [collaborators].
    - A run is observed through its trace: the calls to collaborators and
      the lines printed by the functions that drive a run.  The
      diagnostic lines printed inside the computations (the sufficiency
      checks, the score of a record, the loops of acs_find_ideal_chan)
      are not recorded. *)

From Stdlib Require Import ZArith List Bool String Lia.
From Stdlib Require Import Reals Lra.
From Stdlib Require Import Floats.
Import ListNotations.

#[local] Open Scope Z_scope.

(** ** Header constants used by acs.c *)

Class headers : Type := {
  (* drivers/driver.h: bits of [freq_survey.filled] *)
  SURVEY_HAS_NF : Z;
  SURVEY_HAS_CHAN_TIME : Z;
  SURVEY_HAS_CHAN_TIME_BUSY : Z;
  SURVEY_HAS_CHAN_TIME_RX : Z;
  SURVEY_HAS_CHAN_TIME_TX : Z;
  (* drivers/driver.h: bits of [hostapd_channel_data.flag] *)
  HOSTAPD_CHAN_DISABLED : Z;
  HOSTAPD_CHAN_SURVEY_LIST_INITIALIZED : Z;
  (* common/defs.h: enum hostapd_hw_mode *)
  HOSTAPD_MODE_IEEE80211B : Z;
  HOSTAPD_MODE_IEEE80211G : Z;
  HOSTAPD_MODE_IEEE80211A : Z;
  (* common/ieee802_11_defs.h *)
  VHT_CHANWIDTH_USE_HT : Z;
  VHT_CHANWIDTH_80MHZ : Z;
  (* ap/hostapd.h: enum hostapd_chan_status *)
  HOSTAPD_CHAN_VALID : Z;
  HOSTAPD_CHAN_INVALID : Z;
  HOSTAPD_CHAN_ACS : Z;
  (* ap/ap_config.h: conversion of an [int] to the type of the fields
     [channel] and [vht_oper_centr_freq_seg0_idx] of struct hostapd_config *)
  to_channel : Z -> Z;
  to_vht_oper_centr_freq_seg0_idx : Z -> Z
}.

(** ** [long double] *)

Class LongDouble (F : Type) : Type := {
  ld_of_int : Z -> F;            (* conversion of an integer value *)
  ld_add : F -> F -> F;
  ld_sub : F -> F -> F;
  ld_mul : F -> F -> F;
  ld_div : F -> F -> F;
  ld_pow : F -> F -> F;          (* pow() of <math.h> *)
  ld_lt : F -> F -> bool         (* the C expression [x < y] *)
}.

(** ** Data *)

(** struct freq_survey (drivers/driver.h); [survey_nf] is the field [nf]. *)
Record freq_survey : Type := {
  filled : Z;
  survey_nf : Z;
  channel_time : Z;
  channel_time_busy : Z;
  channel_time_rx : Z;
  channel_time_tx : Z
}.

(** struct hostapd_channel_data (drivers/driver.h) *)
Record hostapd_channel_data (F : Type) : Type := {
  chan : Z;
  freq : Z;
  flag : Z;
  survey_list : list freq_survey;
  min_nf : Z;
  survey_interference_factor : F
}.
Arguments chan {F} _.
Arguments freq {F} _.
Arguments flag {F} _.
Arguments survey_list {F} _.
Arguments min_nf {F} _.
Arguments survey_interference_factor {F} _.

(** struct hostapd_hw_modes: [num_channels] is the length of [channels]. *)
Record hostapd_hw_modes (F : Type) : Type := {
  mode : Z;
  channels : list (hostapd_channel_data F)
}.
Arguments mode {F} _.
Arguments channels {F} _.

(** The fields of struct hostapd_config that acs.c reads or writes. *)
Record hostapd_config : Type := {
  channel : Z;
  ieee80211n : Z;
  secondary_channel : Z;
  ieee80211ac : Z;
  vht_oper_chwidth : Z;
  vht_oper_centr_freq_seg0_idx : Z;
  acs_chan_time_ms : Z
}.

(** [iface->scan_cb]: the only callback acs.c installs is its own. *)
Inductive scan_callback : Type :=
| no_scan_cb
| cb_acs_scan_complete.

(** The fields of struct hostapd_iface that acs.c reads or writes. *)
Record hostapd_iface (F : Type) : Type := {
  conf : hostapd_config;
  current_mode : hostapd_hw_modes F;
  chans_surveyed : Z;
  lowest_nf : Z;
  scan_cb : scan_callback
}.
Arguments conf {F} _.
Arguments current_mode {F} _.
Arguments chans_surveyed {F} _.
Arguments lowest_nf {F} _.
Arguments scan_cb {F} _.

(** struct wpa_driver_scan_params, as acs_request_scan fills it. *)
Record wpa_driver_scan_params : Type := {
  chan_time : Z;
  freqs : list Z
}.

(** ** Observable events: log lines and calls to collaborators *)

Inductive msg_level : Type := MSG_DEBUG | MSG_INFO | MSG_ERROR.

Inductive event : Type :=
| ev_printf (level : msg_level) (msg : string)
| ev_driver_scan (params : wpa_driver_scan_params)
| ev_drv_get_survey
| ev_acs_completed.

(** ** Collaborators

    The functions acs.c calls outside itself.  Each one receives the
    interface, returns its [int] result and may change the interface. *)

Class collaborators (F : Type) : Type := {
  hostapd_driver_scan :
    hostapd_iface F -> wpa_driver_scan_params -> Z * hostapd_iface F;
  hostapd_drv_get_survey : hostapd_iface F -> Z * hostapd_iface F;
  hostapd_acs_completed : hostapd_iface F -> Z * hostapd_iface F
}.

Section Acs.

Context {H : headers}.
Context {F : Type} {LD : LongDouble F}.
Context {X : collaborators F}.

#[local] Abbreviation channel_data := (hostapd_channel_data F).
#[local] Abbreviation iface_t := (hostapd_iface F).

Definition has_flag (bits mask : Z) : bool := negb (Z.land bits mask =? 0).

(** ** Field updates *)

Definition set_survey_list (c : channel_data) (l : list freq_survey) : channel_data :=
  {| chan := chan c; freq := freq c; flag := flag c; survey_list := l;
     min_nf := min_nf c;
     survey_interference_factor := survey_interference_factor c |}.

Definition set_flag (c : channel_data) (f : Z) : channel_data :=
  {| chan := chan c; freq := freq c; flag := f; survey_list := survey_list c;
     min_nf := min_nf c;
     survey_interference_factor := survey_interference_factor c |}.

Definition set_min_nf (c : channel_data) (v : Z) : channel_data :=
  {| chan := chan c; freq := freq c; flag := flag c;
     survey_list := survey_list c; min_nf := v;
     survey_interference_factor := survey_interference_factor c |}.

Definition set_survey_interference_factor (c : channel_data) (v : F) : channel_data :=
  {| chan := chan c; freq := freq c; flag := flag c;
     survey_list := survey_list c; min_nf := min_nf c;
     survey_interference_factor := v |}.

Definition set_channels (i : iface_t) (l : list channel_data) : iface_t :=
  {| conf := conf i;
     current_mode := {| mode := mode (current_mode i); channels := l |};
     chans_surveyed := chans_surveyed i; lowest_nf := lowest_nf i;
     scan_cb := scan_cb i |}.

Definition set_chans_surveyed (i : iface_t) (v : Z) : iface_t :=
  {| conf := conf i; current_mode := current_mode i; chans_surveyed := v;
     lowest_nf := lowest_nf i; scan_cb := scan_cb i |}.

Definition set_scan_cb (i : iface_t) (cb : scan_callback) : iface_t :=
  {| conf := conf i; current_mode := current_mode i;
     chans_surveyed := chans_surveyed i; lowest_nf := lowest_nf i;
     scan_cb := cb |}.

Definition set_conf (i : iface_t) (c : hostapd_config) : iface_t :=
  {| conf := c; current_mode := current_mode i;
     chans_surveyed := chans_surveyed i; lowest_nf := lowest_nf i;
     scan_cb := scan_cb i |}.

Definition set_channel (c : hostapd_config) (v : Z) : hostapd_config :=
  {| channel := v; ieee80211n := ieee80211n c;
     secondary_channel := secondary_channel c; ieee80211ac := ieee80211ac c;
     vht_oper_chwidth := vht_oper_chwidth c;
     vht_oper_centr_freq_seg0_idx := vht_oper_centr_freq_seg0_idx c;
     acs_chan_time_ms := acs_chan_time_ms c |}.

Definition set_vht_oper_centr_freq_seg0_idx (c : hostapd_config) (v : Z) : hostapd_config :=
  {| channel := channel c; ieee80211n := ieee80211n c;
     secondary_channel := secondary_channel c; ieee80211ac := ieee80211ac c;
     vht_oper_chwidth := vht_oper_chwidth c;
     vht_oper_centr_freq_seg0_idx := v;
     acs_chan_time_ms := acs_chan_time_ms c |}.

(** ** acs_clean_chan_surveys, acs_cleanup *)

(** dl_list_for_each_safe unlinks and frees every element. *)
Fixpoint dl_list_del_all (l : list freq_survey) : list freq_survey :=
  match l with
  | [] => []
  | _ :: tl => dl_list_del_all tl
  end.

Definition acs_clean_chan_surveys (c : channel_data) : channel_data :=
  match survey_list c with
  | [] => c
  | _ :: _ => set_survey_list c (dl_list_del_all (survey_list c))
  end.

(** Body of the loop of acs_cleanup for one channel. *)
Definition acs_cleanup_chan (c : channel_data) : channel_data :=
  let c1 := if has_flag (flag c) HOSTAPD_CHAN_SURVEY_LIST_INITIALIZED
            then acs_clean_chan_surveys c else c in
  let c2 := set_survey_list c1 [] in                       (* dl_list_init *)
  let c3 := set_flag c2 (Z.lor (flag c2) HOSTAPD_CHAN_SURVEY_LIST_INITIALIZED) in
  set_min_nf c3 0.

Definition acs_cleanup (i : iface_t) : iface_t :=
  let i1 := set_channels i (map acs_cleanup_chan (channels (current_mode i))) in
  set_chans_surveyed i1 0.

(** ** acs_survey_interference_factor *)

Definition acs_survey_interference_factor (survey : freq_survey) (min_nf0 : Z) : F :=
  let finish (busy : F) : F :=
    let total := ld_of_int (channel_time survey) in
    let '(busy, total) :=
      if has_flag (filled survey) SURVEY_HAS_CHAN_TIME_TX
      then (ld_sub busy (ld_of_int (channel_time_tx survey)),
            ld_sub total (ld_of_int (channel_time_tx survey)))
      else (busy, total) in
    ld_add
      (ld_pow (ld_of_int 10) (ld_div (ld_of_int (survey_nf survey)) (ld_of_int 5)))
      (ld_mul (ld_div busy total)
         (ld_pow (ld_of_int 2)
            (ld_sub
               (ld_pow (ld_of_int 10)
                  (ld_div (ld_of_int (survey_nf survey)) (ld_of_int 10)))
               (ld_pow (ld_of_int 10)
                  (ld_div (ld_of_int min_nf0) (ld_of_int 10)))))) in
  if has_flag (filled survey) SURVEY_HAS_CHAN_TIME_BUSY
  then finish (ld_of_int (channel_time_busy survey))
  else if has_flag (filled survey) SURVEY_HAS_CHAN_TIME_RX
  then finish (ld_of_int (channel_time_rx survey))
  else ld_of_int 0.

(** ** acs_usable_chan, acs_usable_ht40_chan *)

Definition acs_usable_chan (c : channel_data) : bool :=
  match survey_list c with
  | [] => false
  | _ :: _ => if has_flag (flag c) HOSTAPD_CHAN_DISABLED then false else true
  end.

Definition allowed : list Z :=
  [36; 44; 52; 60; 100; 108; 116; 124; 132; 149; 157; 184; 192].

Definition acs_usable_ht40_chan (c : channel_data) : bool :=
  existsb (fun a => chan c =? a) allowed.

(** ** acs_survey_chan_interference_factor and the loop over all channels *)

Definition acs_survey_chan_interference_factor (i : iface_t) (c : channel_data) : channel_data :=
  match survey_list c with
  | [] => c
  | _ :: _ =>
      if has_flag (flag c) HOSTAPD_CHAN_DISABLED then c
      else
        let sum :=
          fold_left
            (fun acc survey =>
               ld_add acc (acs_survey_interference_factor survey (lowest_nf i)))
            (survey_list c) (ld_of_int 0) in
        set_survey_interference_factor c
          (ld_div sum (ld_of_int (Z.of_nat (List.length (survey_list c)))))
  end.

Definition acs_survey_all_chans_intereference_factor (i : iface_t) : iface_t :=
  set_channels i
    (map (fun c => if acs_usable_chan c
                   then acs_survey_chan_interference_factor i c else c)
         (channels (current_mode i))).

(** ** acs_survey_is_sufficient, acs_surveys_are_sufficient *)

Definition acs_survey_is_sufficient (survey : freq_survey) : bool :=
  if negb (has_flag (filled survey) SURVEY_HAS_NF) then false
  else if negb (has_flag (filled survey) SURVEY_HAS_CHAN_TIME) then false
  else if negb (has_flag (filled survey) SURVEY_HAS_CHAN_TIME_BUSY)
          && negb (has_flag (filled survey) SURVEY_HAS_CHAN_TIME_RX) then false
  else true.

(** The inner dl_list_for_each: [false] when it returns 0 from the function. *)
Fixpoint surveys_loop (l : list freq_survey) : bool :=
  match l with
  | [] => true
  | survey :: tl =>
      if negb (acs_survey_is_sufficient survey) then false else surveys_loop tl
  end.

Fixpoint surveys_are_sufficient_loop (l : list channel_data) : bool :=
  match l with
  | [] => true
  | c :: tl =>
      if has_flag (flag c) HOSTAPD_CHAN_DISABLED
      then surveys_are_sufficient_loop tl
      else if surveys_loop (survey_list c)
           then surveys_are_sufficient_loop tl
           else false
  end.

Definition acs_surveys_are_sufficient (i : iface_t) : bool :=
  surveys_are_sufficient_loop (channels (current_mode i)).

(** ** acs_find_chan *)

(** A pointer into the channel array: the index and the element there. *)
Definition chan_ptr : Type := (nat * channel_data)%type.

Fixpoint find_chan_loop (l : list channel_data) (idx : nat) (f : Z) : option chan_ptr :=
  match l with
  | [] => None
  | c :: tl =>
      if negb (acs_usable_chan c) then find_chan_loop tl (S idx) f
      else if freq c =? f then Some (idx, c)
      else find_chan_loop tl (S idx) f
  end.

Definition acs_find_chan (i : iface_t) (f : Z) : option chan_ptr :=
  find_chan_loop (channels (current_mode i)) 0%nat f.

(** ** acs_find_ideal_chan *)

Definition c_true (v : Z) : bool := negb (v =? 0).

(** The value of [n_chans] after the two tests on the configuration. *)
Definition acs_n_chans (cf : hostapd_config) : Z :=
  let n_chans := 1 in
  let n_chans :=
    if c_true (ieee80211n cf) && c_true (secondary_channel cf) then 2 else n_chans in
  if c_true (ieee80211ac cf) && (vht_oper_chwidth cf =? 1) then 4 else n_chans.

(** [for (j = 1; j < n_chans; j++)] with its [break]; [fuel] is the number
    of values of [j] left below [n_chans].  Returns the final [j] and
    [factor]. *)
Fixpoint bandwidth_loop (i : iface_t) (c : channel_data) (j : Z) (fuel : nat)
    (factor : F) : Z * F :=
  match fuel with
  | O => (j, factor)
  | S fuel' =>
      match acs_find_chan i (freq c + j * 20) with
      | None => (j, factor)
      | Some (_, adj_chan) =>
          bandwidth_loop i c (j + 1) fuel'
            (ld_add factor (survey_interference_factor adj_chan))
      end
  end.

(** [adj_chan = acs_find_chan(iface, f); if (adj_chan) factor += ...] *)
Definition add_adjacent (i : iface_t) (f : Z) (factor : F) : F :=
  match acs_find_chan i f with
  | Some (_, adj_chan) => ld_add factor (survey_interference_factor adj_chan)
  | None => factor
  end.

(** [for (j = 0; j < n_chans; j++)] of the 2.4 GHz branch. *)
Fixpoint adjacent_loop (i : iface_t) (c : channel_data) (j : Z) (fuel : nat)
    (factor : F) : F :=
  match fuel with
  | O => factor
  | S fuel' =>
      let factor := add_adjacent i (freq c + j * 20 - 5) factor in
      let factor := add_adjacent i (freq c + j * 20 - 10) factor in
      let factor := add_adjacent i (freq c + j * 20 + 5) factor in
      let factor := add_adjacent i (freq c + j * 20 + 10) factor in
      adjacent_loop i c (j + 1) fuel' factor
  end.

(** The body of the main loop up to the comparison with [ideal_factor]:
    [None] where the body executes [continue], otherwise the value of
    [factor]. *)
Definition acs_chan_factor (i : iface_t) (n_chans : Z) (c : channel_data) : option F :=
  if negb (acs_usable_chan c) then None
  else if (mode (current_mode i) =? HOSTAPD_MODE_IEEE80211A)
          && c_true (ieee80211n (conf i))
          && c_true (secondary_channel (conf i))
          && negb (acs_usable_ht40_chan c) then None
  else
    let factor := survey_interference_factor c in
    let '(j, factor) :=
      bandwidth_loop i c 1 (Z.to_nat (n_chans - 1)) factor in
    if negb (j =? n_chans) then None
    else
      let factor :=
        if (mode (current_mode i) =? HOSTAPD_MODE_IEEE80211B)
           || (mode (current_mode i) =? HOSTAPD_MODE_IEEE80211G)
        then adjacent_loop i c 0 (Z.to_nat n_chans) factor
        else factor in
      Some factor.

(** The main loop over the channels from index [idx] on, carrying
    [ideal_chan] and [ideal_factor]. *)
Fixpoint ideal_chan_loop (i : iface_t) (n_chans : Z) (l : list channel_data)
    (idx : nat) (ideal_chan : option chan_ptr) (ideal_factor : F)
    : option chan_ptr * F :=
  match l with
  | [] => (ideal_chan, ideal_factor)
  | c :: tl =>
      match acs_chan_factor i n_chans c with
      | None => ideal_chan_loop i n_chans tl (S idx) ideal_chan ideal_factor
      | Some factor =>
          if match ideal_chan with None => true | Some _ => false end
             || ld_lt factor ideal_factor
          then ideal_chan_loop i n_chans tl (S idx) (Some (idx, c)) factor
          else ideal_chan_loop i n_chans tl (S idx) ideal_chan ideal_factor
      end
  end.

Definition acs_find_ideal_chan (i : iface_t) : option chan_ptr :=
  if c_true (ieee80211n (conf i)) && (secondary_channel (conf i) =? -1)
  then None
  else
    fst (ideal_chan_loop i (acs_n_chans (conf i)) (channels (current_mode i))
           0%nat None (ld_of_int 0)).

(** ** State and trace

    The functions below run on the interface and append to the trace of
    events; [acs_m A] is a computation that returns an [A]. *)

Record acs_state : Type := {
  st_iface : iface_t;
  st_trace : list event
}.

Definition acs_m (A : Type) : Type := acs_state -> A * acs_state.

Definition ret {A : Type} (a : A) : acs_m A := fun s => (a, s).

Definition bind {A B : Type} (m : acs_m A) (k : A -> acs_m B) : acs_m B :=
  fun s => let '(a, s') := m s in k a s'.

Definition get_iface : acs_m iface_t := fun s => (st_iface s, s).

Definition put_iface (i : iface_t) : acs_m unit :=
  fun s => (tt, {| st_iface := i; st_trace := st_trace s |}).

Definition emit (e : event) : acs_m unit :=
  fun s => (tt, {| st_iface := st_iface s; st_trace := st_trace s ++ [e] |}).

Definition wpa_printf (level : msg_level) (msg : string) : acs_m unit :=
  emit (ev_printf level msg).

Notation "x <- m ;; k" := (bind m (fun x => k))
  (at level 61, m at next level, right associativity).
Notation "m ;;; k" := (bind m (fun _ => k))
  (at level 61, right associativity).

(** ** acs_fail *)

Definition acs_fail : acs_m unit :=
  wpa_printf MSG_ERROR "ACS: Failed to start" ;;;
  i <- get_iface ;;
  put_iface (acs_cleanup i).

(** ** acs_adjust_vht_sec_chan *)

Definition acs_adjust_vht_sec_chan : acs_m unit :=
  i <- get_iface ;;
  if negb (c_true (ieee80211ac (conf i))) then ret tt
  else
    wpa_printf MSG_INFO "ACS: Adjusting VHT second oper channel" ;;;
    if vht_oper_chwidth (conf i) =? VHT_CHANWIDTH_USE_HT then
      put_iface (set_conf i (set_vht_oper_centr_freq_seg0_idx (conf i)
                               (to_vht_oper_centr_freq_seg0_idx (channel (conf i) + 2))))
    else if vht_oper_chwidth (conf i) =? VHT_CHANWIDTH_80MHZ then
      put_iface (set_conf i (set_vht_oper_centr_freq_seg0_idx (conf i)
                               (to_vht_oper_centr_freq_seg0_idx (channel (conf i) + 6))))
    else
      wpa_printf MSG_INFO "ACS: Only VHT20/40/80 is supported now".

(** ** acs_study_survey_based, acs_study_options *)

Definition acs_study_survey_based : acs_m Z :=
  wpa_printf MSG_DEBUG "ACS: Trying survey-based ACS" ;;;
  i <- get_iface ;;
  if negb (c_true (chans_surveyed i)) then
    wpa_printf MSG_ERROR "ACS: Unable to collect survey data" ;;;
    ret (-1)
  else if negb (acs_surveys_are_sufficient i) then
    wpa_printf MSG_ERROR "ACS: Surveys have insufficient data" ;;;
    ret (-1)
  else
    put_iface (acs_survey_all_chans_intereference_factor i) ;;;
    ret 0.

Definition acs_study_options : acs_m Z :=
  err <- acs_study_survey_based ;;
  if err =? 0 then ret 0 else ret (-1).

(** ** acs_study

    acs_study in three parts, in the order of the source:
    [acs_study_set_channel] is the assignment to [iface->conf->channel]
    with the call of acs_adjust_vht_sec_chan, [acs_study_commit] is
    acs_study from that assignment to its end. *)

Definition acs_study_set_channel (ideal_chan : channel_data) : acs_m unit :=
  i <- get_iface ;;
  put_iface (set_conf i (set_channel (conf i) (to_channel (chan ideal_chan)))) ;;;
  acs_adjust_vht_sec_chan.

Definition acs_study_commit (ideal_chan : channel_data) : acs_m unit :=
  acs_study_set_channel ideal_chan ;;;
  i <- get_iface ;;
  emit ev_acs_completed ;;;
  let '(r, i') := hostapd_acs_completed i in
  put_iface i' ;;;
  if r =? HOSTAPD_CHAN_VALID then
    put_iface (acs_cleanup i')
  else
    (* case HOSTAPD_CHAN_INVALID: case HOSTAPD_CHAN_ACS: default: *)
    wpa_printf MSG_ERROR
      "ACS: Possibly channel configuration is invalid, please report this along with your config file." ;;;
    acs_fail.

Definition acs_study : acs_m unit :=
  err <- acs_study_options ;;
  if err <? 0 then
    wpa_printf MSG_ERROR "ACS: All study options have failed" ;;;
    acs_fail
  else
    i <- get_iface ;;
    match acs_find_ideal_chan i with
    | None =>
        wpa_printf MSG_ERROR "ACS: Failed to compute ideal channel" ;;;
        acs_fail
    | Some (_, ideal_chan) => acs_study_commit ideal_chan
    end.

(** ** acs_scan_complete *)

Definition acs_scan_complete : acs_m unit :=
  wpa_printf MSG_DEBUG "ACS: using survey based algorithm (acs_chan_time_ms=%d)" ;;;
  i <- get_iface ;;
  emit ev_drv_get_survey ;;;
  let '(err, i') := hostapd_drv_get_survey i in
  put_iface i' ;;;
  (if c_true err then
     wpa_printf MSG_ERROR "ACS: Failed to get survey data" ;;;
     acs_fail
   else ret tt) ;;;
  acs_study.

(** ** acs_request_scan, acs_init *)

(** [params] when acs_request_scan calls the driver: the frequencies of
    the channels without the disabled flag, then the terminating 0. *)
Definition acs_scan_params (i : iface_t) : wpa_driver_scan_params :=
  {| chan_time := acs_chan_time_ms (conf i);
     freqs :=
       map freq
         (filter (fun c => negb (has_flag (flag c) HOSTAPD_CHAN_DISABLED))
            (channels (current_mode i))) ++ [0] |}.

Definition acs_request_scan : acs_m Z :=
  i <- get_iface ;;
  let params := acs_scan_params i in
  let i := set_scan_cb i cb_acs_scan_complete in
  emit (ev_driver_scan params) ;;;
  let '(r, i') := hostapd_driver_scan i params in
  put_iface i' ;;;
  if r <? 0 then
    wpa_printf MSG_ERROR "ACS: Failed to request initial scan" ;;;
    put_iface (acs_cleanup i') ;;;
    ret (-1)
  else ret 0.

Definition acs_init : acs_m Z :=
  wpa_printf MSG_INFO "ACS: Automatic channel selection started, this may take a bit" ;;;
  i <- get_iface ;;
  put_iface (acs_cleanup i) ;;;
  err <- acs_request_scan ;;
  if err <? 0 then ret HOSTAPD_CHAN_INVALID else ret HOSTAPD_CHAN_ACS.

End Acs.

Arguments acs_state F : clear implicits.
Arguments acs_m F A : clear implicits.
Arguments chan_ptr F : clear implicits.

(** ** The real numbers as an implementation of [LongDouble]

    An arithmetic without rounding, infinities or NaN, with [x / 0 = 0].
    It is not the arithmetic of the code: it carries examples, at
    inputs where no division is by zero, and the statements about the
    order of scores are proved for every arithmetic with the laws of
    [LongDoubleOrder] and [LongDoubleArith], not for this one alone. *)

#[export] Instance R_LongDouble : LongDouble R := {|
  ld_of_int := IZR;
  ld_add := Rplus;
  ld_sub := Rminus;
  ld_mul := Rmult;
  ld_div := Rdiv;
  ld_pow := Rpower;
  ld_lt := fun x y => if Rlt_dec x y then true else false
|}.

(** ** The specification's wording of the score (section 4.1) *)

Section Spec.

Context {H : headers}.
Context {F : Type} {LD : LongDouble F}.

Definition present (record : freq_survey) (field : Z) : bool :=
  has_flag (filled record) field.

(** [busy] and [total] of the specification, as integers. *)
Definition spec_busy (record : freq_survey) : Z :=
  let busy := if present record SURVEY_HAS_CHAN_TIME_BUSY
              then channel_time_busy record else channel_time_rx record in
  if present record SURVEY_HAS_CHAN_TIME_TX
  then busy - channel_time_tx record else busy.

Definition spec_total (record : freq_survey) : Z :=
  let total := channel_time record in
  if present record SURVEY_HAS_CHAN_TIME_TX
  then total - channel_time_tx record else total.

(** [10^(noiseFloor/5)] *)
Definition spec_floor_term (record : freq_survey) : F :=
  ld_pow (ld_of_int 10) (ld_div (ld_of_int (survey_nf record)) (ld_of_int 5)).

(** [factor] of the specification, the subtractions done on [long double]
    values as the formula is written. *)
Definition spec_score (record : freq_survey) (bandMinNoiseFloor : Z) : F :=
  let busy := if present record SURVEY_HAS_CHAN_TIME_BUSY
              then ld_of_int (channel_time_busy record)
              else ld_of_int (channel_time_rx record) in
  let total := ld_of_int (channel_time record) in
  let busy := if present record SURVEY_HAS_CHAN_TIME_TX
              then ld_sub busy (ld_of_int (channel_time_tx record)) else busy in
  let total := if present record SURVEY_HAS_CHAN_TIME_TX
               then ld_sub total (ld_of_int (channel_time_tx record)) else total in
  ld_add (spec_floor_term record)
    (ld_mul (ld_div busy total)
       (ld_pow (ld_of_int 2)
          (ld_sub
             (ld_pow (ld_of_int 10)
                (ld_div (ld_of_int (survey_nf record)) (ld_of_int 10)))
             (ld_pow (ld_of_int 10)
                (ld_div (ld_of_int bandMinNoiseFloor) (ld_of_int 10)))))).

(** Every channel has an empty survey list and [min_nf == 0]. *)
Definition chan_clean (c : hostapd_channel_data F) : Prop :=
  survey_list c = [] /\ min_nf c = 0.

Definition survey_store_clean (i : hostapd_iface F) : Prop :=
  Forall chan_clean (channels (current_mode i)).

(** One round of adjacent-channel leakage around the frequency [f]: the
    lookups at [f - 5], [f - 10], [f + 5] and [f + 10], in that order. *)
Definition adjacent_round (i : hostapd_iface F) (f : Z) (total : F) : F :=
  add_adjacent i (f + 10)
    (add_adjacent i (f + 5)
       (add_adjacent i (f - 10)
          (add_adjacent i (f - 5) total))).

(** The line acs_fail prints. *)
Definition fail_line : event := ev_printf MSG_ERROR "ACS: Failed to start".

(** The line acs_study prints when hostapd_acs_completed does not return
    HOSTAPD_CHAN_VALID. *)
Definition rejected_line : event :=
  ev_printf MSG_ERROR
    "ACS: Possibly channel configuration is invalid, please report this along with your config file.".

End Spec.

(** ** Concrete values for the examples

    The values of the constants in hostapd's headers, collaborators that
    accept every request, and collaborators that refuse them. *)

Module Examples.

#[export] Instance hostapd_headers : headers := {|
  SURVEY_HAS_NF := 1;
  SURVEY_HAS_CHAN_TIME := 2;
  SURVEY_HAS_CHAN_TIME_BUSY := 4;
  SURVEY_HAS_CHAN_TIME_RX := 8;
  SURVEY_HAS_CHAN_TIME_TX := 16;
  HOSTAPD_CHAN_DISABLED := 1;
  HOSTAPD_CHAN_SURVEY_LIST_INITIALIZED := 128;
  HOSTAPD_MODE_IEEE80211B := 0;
  HOSTAPD_MODE_IEEE80211G := 1;
  HOSTAPD_MODE_IEEE80211A := 2;
  VHT_CHANWIDTH_USE_HT := 0;
  VHT_CHANWIDTH_80MHZ := 1;
  HOSTAPD_CHAN_VALID := 0;
  HOSTAPD_CHAN_INVALID := 1;
  HOSTAPD_CHAN_ACS := 2;
  to_channel := fun v => v mod 256;
  to_vht_oper_centr_freq_seg0_idx := fun v => v mod 256
|}.

Definition accepting : collaborators R := {|
  hostapd_driver_scan := fun i _ => (0, i);
  hostapd_drv_get_survey := fun i => (0, i);
  hostapd_acs_completed := fun i => (0, i)
|}.

Definition refusing : collaborators R := {|
  hostapd_driver_scan := fun i _ => (-1, i);
  hostapd_drv_get_survey := fun i => (-1, i);
  hostapd_acs_completed := fun i => (-1, i)
|}.

(** hostapd_acs_completed asks for ACS again (HOSTAPD_CHAN_ACS). *)
Definition looping : collaborators R := {|
  hostapd_driver_scan := fun i _ => (0, i);
  hostapd_drv_get_survey := fun i => (0, i);
  hostapd_acs_completed := fun i => (2, i)
|}.

Definition survey (fields nf0 time busy rx tx : Z) : freq_survey :=
  {| filled := fields; survey_nf := nf0; channel_time := time;
     channel_time_busy := busy; channel_time_rx := rx;
     channel_time_tx := tx |}.

Definition chan_entry (number f flags : Z) (l : list freq_survey) (v : R)
    : hostapd_channel_data R :=
  {| chan := number; freq := f; flag := flags; survey_list := l;
     min_nf := -100; survey_interference_factor := v |}.

Definition config (n sec ac width : Z) : hostapd_config :=
  {| channel := 0; ieee80211n := n; secondary_channel := sec;
     ieee80211ac := ac; vht_oper_chwidth := width;
     vht_oper_centr_freq_seg0_idx := 0; acs_chan_time_ms := 20 |}.

Definition iface_of (cf : hostapd_config) (m : Z)
    (l : list (hostapd_channel_data R)) (surveyed : Z) : hostapd_iface R :=
  {| conf := cf; current_mode := {| mode := m; channels := l |};
     chans_surveyed := surveyed; lowest_nf := -100; scan_cb := no_scan_cb |}.

Definition state_of (i : hostapd_iface R) : acs_state R :=
  {| st_iface := i; st_trace := [] |}.

(** A record with noise floor, total time, rx time and tx time, where
    the radio transmitted (5) for longer than it received (2). *)
Definition tx_heavy_survey : freq_survey := survey 27 (-100) 10 0 2 5.

(** A plain sufficient record: noise floor, total time and busy time. *)
Definition busy_survey : freq_survey := survey 7 (-100) 10 3 0 0.

(** Channels 1 and 6 of the 2.4 GHz band with one record each. *)
Definition two_channels : list (hostapd_channel_data R) :=
  [chan_entry 1 2412 0 [busy_survey] 1%R;
   chan_entry 6 2437 0 [busy_survey] 1%R].

(** HT40- requested: [ieee80211n] set and [secondary_channel == -1]. *)
Definition ht40minus_iface : hostapd_iface R :=
  iface_of (config 1 (-1) 0 0) 1 two_channels 2.

(** HT40+ on the same table: channel 1 has no channel at 2432 MHz. *)
Definition ht40plus_iface : hostapd_iface R :=
  iface_of (config 1 1 0 0) 1 two_channels 2.

(** Channels 36 and 40 of the 5 GHz band with equal factors, 20 MHz. *)
Definition channel_36 : hostapd_channel_data R :=
  chan_entry 36 5180 0 [busy_survey] 1%R.

Definition tie_iface : hostapd_iface R :=
  iface_of (config 0 0 0 0) 2
    [channel_36; chan_entry 40 5200 0 [busy_survey] 1%R] 2.

(** Channels 1, 2 and 3 of the 2.4 GHz band, 5 MHz apart, and channel 4
    disabled; 20 MHz. *)
Definition channel_1 : hostapd_channel_data R :=
  chan_entry 1 2412 0 [busy_survey] 1%R.

Definition overlapping_iface : hostapd_iface R :=
  iface_of (config 0 0 0 0) 1
    [channel_1;
     chan_entry 2 2417 0 [busy_survey] 2%R;
     chan_entry 3 2422 0 [busy_survey] 4%R;
     chan_entry 4 2427 1 [busy_survey] 8%R] 4.

(** A record without busy time and without rx time. *)
Definition idle_survey : freq_survey := survey 3 (-100) 10 0 0 0.

End Examples.

(** ** Further concrete values *)

Module MoreExamples.

Import Examples.

(** Channel 1 disabled and channel 6 without surveys. *)
Definition unusable_iface : hostapd_iface R :=
  iface_of (config 0 0 0 0) 1
    [chan_entry 1 2412 1 [busy_survey] 1%R;
     chan_entry 6 2437 0 [] 1%R] 1.

(** HT40+ in mode A: channels 36 and 40, 20 MHz apart. *)
Definition ht40_5ghz_iface : hostapd_iface R :=
  iface_of (config 1 1 0 0) 2
    [channel_36; chan_entry 40 5200 0 [busy_survey] 1%R] 2.

(** VHT80 in mode A. *)
Definition vht80_iface : hostapd_iface R :=
  iface_of (config 1 1 1 1) 2
    [channel_36; chan_entry 40 5200 0 [busy_survey] 1%R] 2.

(** The disabled channel 4 of [overlapping_iface]. *)
Definition channel_4 : hostapd_channel_data R :=
  chan_entry 4 2427 1 [busy_survey] 8%R.

(** One enabled channel whose record has neither busy nor rx time. *)
Definition insufficient_iface : hostapd_iface R :=
  iface_of (config 0 0 0 0) 1 [chan_entry 1 2412 0 [idle_survey] 1%R] 1.

End MoreExamples.

(** ** Comparisons of [long double] values

    [ld_le] is the C expression [x <= y] and [ld_finite] is isfinite(x).
    The two classes of laws list the facts about the arithmetic that the
    statements about the order of scores rest on.  Each of them holds in
    IEEE 754 arithmetic, infinities and NaN included, in every rounding
    mode.  [LongDoubleOrder]: a comparison with a NaN is false, [<] is
    transitive, and [x <= y < z] gives [x < z].  [LongDoubleArith]: the
    rounded sum of a finite [x] with [0 <= x] and a [y] with [0 <= y] is
    not below [x], because rounding is monotone and [x] is
    representable; the product of two finite values that are not
    negative is not negative. *)

Class LongDoubleCmp (F : Type) : Type := {
  ld_le : F -> F -> bool;
  ld_finite : F -> bool
}.

Class LongDoubleOrder (F : Type) {LD : LongDouble F} {CMP : LongDoubleCmp F}
    : Prop := {
  ld_lt_irrefl : forall x : F, ld_lt x x = false;
  ld_lt_trans : forall x y z : F,
    ld_lt x y = true -> ld_lt y z = true -> ld_lt x z = true;
  ld_le_lt_trans : forall x y z : F,
    ld_le x y = true -> ld_lt y z = true -> ld_lt x z = true
}.

Class LongDoubleArith (F : Type) {LD : LongDouble F} {CMP : LongDoubleCmp F}
    : Prop := {
  ld_add_nonneg : forall x y : F,
    ld_finite x = true ->
    ld_le (ld_of_int 0) x = true -> ld_le (ld_of_int 0) y = true ->
    ld_le x (ld_add x y) = true;
  ld_mul_nonneg : forall x y : F,
    ld_finite x = true -> ld_finite y = true ->
    ld_le (ld_of_int 0) x = true -> ld_le (ld_of_int 0) y = true ->
    ld_le (ld_of_int 0) (ld_mul x y) = true
}.

(** On the real numbers every value is finite. *)
#[export] Instance R_LongDoubleCmp : LongDoubleCmp R := {|
  ld_le := fun x y => if Rle_dec x y then true else false;
  ld_finite := fun _ => true
|}.

Section SpecOrder.

Context {H : headers}.
Context {F : Type} {LD : LongDouble F} {CMP : LongDoubleCmp F}.

(** [busy / total] of the specification, as acs.c computes it: on
    [long double] values, the tx time taken off both when present. *)
Definition spec_ratio (record : freq_survey) : F :=
  let busy := if present record SURVEY_HAS_CHAN_TIME_BUSY
              then ld_of_int (channel_time_busy record)
              else ld_of_int (channel_time_rx record) in
  let total := ld_of_int (channel_time record) in
  if present record SURVEY_HAS_CHAN_TIME_TX
  then ld_div (ld_sub busy (ld_of_int (channel_time_tx record)))
              (ld_sub total (ld_of_int (channel_time_tx record)))
  else ld_div busy total.

(** [2^(10^(noiseFloor/10) - 10^(bandMinNoiseFloor/10))] *)
Definition spec_noise_term (record : freq_survey) (bandMinNoiseFloor : Z) : F :=
  ld_pow (ld_of_int 2)
    (ld_sub
       (ld_pow (ld_of_int 10)
          (ld_div (ld_of_int (survey_nf record)) (ld_of_int 10)))
       (ld_pow (ld_of_int 10)
          (ld_div (ld_of_int bandMinNoiseFloor) (ld_of_int 10)))).

(** [res] with total [t] is a channel of [l] that acs_chan_factor does
    not skip, no channel of [l] has a total that compares [<] to [t],
    and no channel before it has a total that compares [<=] to [t]; no
    result when every channel is skipped. *)
Definition first_least (i : hostapd_iface F) (n : Z)
    (l : list (hostapd_channel_data F)) (res : option (chan_ptr F)) (t : F)
    : Prop :=
  match res with
  | None => forall c, In c l -> acs_chan_factor i n c = None
  | Some (k, c) =>
      nth_error l k = Some c /\ acs_chan_factor i n c = Some t /\
      forall k' c' t',
        nth_error l k' = Some c' -> acs_chan_factor i n c' = Some t' ->
        ld_lt t' t = false /\ ((k' < k)%nat -> ld_le t' t = false)
  end.

(** No total of [l] is a NaN: any two of them compare. *)
Definition totals_comparable (i : hostapd_iface F) (n : Z)
    (l : list (hostapd_channel_data F)) : Prop :=
  forall c1 c2 t1 t2,
    In c1 l -> In c2 l ->
    acs_chan_factor i n c1 = Some t1 -> acs_chan_factor i n c2 = Some t2 ->
    ld_le t1 t2 = true \/ ld_lt t2 t1 = true.

End SpecOrder.

(** ** IEEE 754 binary64 as [long double]

    The format of [long double] where it is the same type as [double],
    computed by the primitive floating-point operations, which are those
    of the hardware.  pow() of <math.h> is not one of them, so the
    implementation takes it as an argument.  [binary64_pow] is the case
    the C standard fixes exactly, pow(x, 0) = 1 for every [x]; it is a
    NaN at every other exponent, which the examples do not reach. *)

Module Binary64.

Definition binary64_of_int (z : Z) : float :=
  SF2Prim (binary_normalize prec emax z 0 false).

Definition binary64_with (pow : float -> float -> float) : LongDouble float := {|
  ld_of_int := binary64_of_int;
  ld_add := PrimFloat.add;
  ld_sub := PrimFloat.sub;
  ld_mul := PrimFloat.mul;
  ld_div := PrimFloat.div;
  ld_pow := pow;
  ld_lt := PrimFloat.ltb
|}.

Definition binary64_pow (x y : float) : float :=
  if PrimFloat.is_zero y then PrimFloat.one else PrimFloat.nan.

#[export] Instance binary64_LongDouble : LongDouble float :=
  binary64_with binary64_pow.

#[export] Instance binary64_LongDoubleCmp : LongDoubleCmp float := {|
  ld_le := PrimFloat.leb;
  ld_finite := PrimFloat.is_finite
|}.

(** A record with every field, taken while the radio transmitted for the
    whole dwell time: time, busy time and tx time are all 5. *)
Definition saturated_survey : freq_survey :=
  {| filled := 31; survey_nf := 0; channel_time := 5;
     channel_time_busy := 5; channel_time_rx := 0; channel_time_tx := 5 |}.

(** A record with noise floor, time 10 and busy time 5. *)
Definition half_busy_survey : freq_survey :=
  {| filled := 7; survey_nf := 0; channel_time := 10;
     channel_time_busy := 5; channel_time_rx := 0; channel_time_tx := 0 |}.

(** A record with rx time 2 and tx time 5: more sent than received. *)
Definition tx_heavy_survey : freq_survey :=
  {| filled := 27; survey_nf := 0; channel_time := 10;
     channel_time_busy := 0; channel_time_rx := 2; channel_time_tx := 5 |}.

Definition surveyed_chan (number f : Z) (l : list freq_survey) (v : float)
    : hostapd_channel_data float :=
  {| chan := number; freq := f; flag := 0; survey_list := l; min_nf := 0;
     survey_interference_factor := v |}.

Definition iface_of (l : list (hostapd_channel_data float))
    : hostapd_iface float :=
  {| conf := Examples.config 0 0 0 0;
     current_mode := {| mode := 2; channels := l |};
     chans_surveyed := 2; lowest_nf := 0; scan_cb := no_scan_cb |}.

(** Channels 36 and 40 in mode A at 20 MHz, as the driver leaves them. *)
Definition surveyed_iface : hostapd_iface float :=
  iface_of [surveyed_chan 36 5180 [saturated_survey] PrimFloat.zero;
            surveyed_chan 40 5200 [half_busy_survey] PrimFloat.zero].

(** The table after acs_survey_all_chans_intereference_factor, for any
    pow() and for [binary64_pow]. *)
Definition scored_with (pow : float -> float -> float) : hostapd_iface float :=
  acs_survey_all_chans_intereference_factor (H := Examples.hostapd_headers)
    (LD := binary64_with pow) surveyed_iface.

Definition scored_iface : hostapd_iface float := scored_with binary64_pow.

(** The two channels after scoring. *)
Definition saturated_chan : hostapd_channel_data float :=
  surveyed_chan 36 5180 [saturated_survey] PrimFloat.nan.

Definition half_busy_chan : hostapd_channel_data float :=
  surveyed_chan 40 5200 [half_busy_survey] 1.5%float.

(** Two channels with the same total, 1.5. *)
Definition level_chan : hostapd_channel_data float :=
  surveyed_chan 36 5180 [half_busy_survey] 1.5%float.

Definition level_iface : hostapd_iface float :=
  iface_of [level_chan; half_busy_chan].

End Binary64.

(** The exponent of the binary64 format for a value of magnitude
    [2 ^ e]. *)
#[local] Abbreviation fexp64 := (fexp prec emax).

(** The values that are not below zero, and the finite ones among
    them. *)
Definition SFnonneg (x : spec_float) : bool :=
  match x with
  | S754_zero _ => true
  | S754_infinity s => negb s
  | S754_nan => false
  | S754_finite s _ _ => negb s
  end.

Definition SFfinite (x : spec_float) : bool :=
  match x with
  | S754_zero _ | S754_finite _ _ _ => true
  | _ => false
  end.

(** * Properties *)

Section AcsTheory.

Context {H : headers}.
Context {F : Type} {LD : LongDouble F}.
Context {X : collaborators F}.

(** ** Sufficiency *)

Lemma surveys_loop_true (l : list freq_survey) :
  surveys_loop l = true <->
  forall survey, In survey l -> acs_survey_is_sufficient survey = true.
Proof.
  induction l as [|s tl IH]; simpl.
  - split; [intros _ ? []|reflexivity].
  - destruct (acs_survey_is_sufficient s) eqn:E; simpl.
    + rewrite IH. split.
      * intros Htl x [<-|Hx]; auto.
      * intros Hall x Hx. apply Hall. now right.
    + split; [discriminate|].
      intros Hall. rewrite <- E. apply Hall. now left.
Qed.

Lemma surveys_are_sufficient_loop_true (l : list (hostapd_channel_data F)) :
  surveys_are_sufficient_loop l = true <->
  forall c, In c l -> has_flag (flag c) HOSTAPD_CHAN_DISABLED = false ->
    forall survey, In survey (survey_list c) ->
      acs_survey_is_sufficient survey = true.
Proof.
  induction l as [|c tl IH]; simpl.
  - split; [intros _ ? []|reflexivity].
  - destruct (has_flag (flag c) HOSTAPD_CHAN_DISABLED) eqn:D.
    + rewrite IH. split.
      * intros Htl x [<-|Hx] Hen; [congruence|now apply Htl].
      * intros Hall x Hx. apply Hall. now right.
    + destruct (surveys_loop (survey_list c)) eqn:S.
      * rewrite IH. split.
        -- intros Htl x [<-|Hx] Hen; [|now apply Htl].
           now apply surveys_loop_true.
        -- intros Hall x Hx. apply Hall. now right.
      * split; [discriminate|].
        intros Hall. rewrite <- S. apply surveys_loop_true.
        apply (Hall c); [now left|exact D].
Qed.

(** C6.  A record is sufficient exactly when [filled] has the noise floor
    bit, the channel time bit and at least one of the busy time and rx
    time bits; the surveys of an interface are sufficient exactly when
    every record of every channel without the disabled flag is
    sufficient (records of disabled channels are not looked at). *)
Theorem acs_sufficiency_characterised :
  (forall record : freq_survey,
      acs_survey_is_sufficient record = true <->
      present record SURVEY_HAS_NF = true /\
      present record SURVEY_HAS_CHAN_TIME = true /\
      (present record SURVEY_HAS_CHAN_TIME_BUSY = true \/
       present record SURVEY_HAS_CHAN_TIME_RX = true)) /\
  (forall i : hostapd_iface F,
      acs_surveys_are_sufficient i = true <->
      forall c, In c (channels (current_mode i)) ->
        has_flag (flag c) HOSTAPD_CHAN_DISABLED = false ->
        forall record, In record (survey_list c) ->
          acs_survey_is_sufficient record = true).
Proof.
  split.
  - intros record. unfold acs_survey_is_sufficient, present.
    destruct (has_flag (filled record) SURVEY_HAS_NF);
      destruct (has_flag (filled record) SURVEY_HAS_CHAN_TIME);
      destruct (has_flag (filled record) SURVEY_HAS_CHAN_TIME_BUSY);
      destruct (has_flag (filled record) SURVEY_HAS_CHAN_TIME_RX);
      simpl; intuition congruence.
  - intros i. apply surveys_are_sufficient_loop_true.
Qed.

(** ** The score of one record *)

(** C1.  With the busy time or the rx time bit in [filled], the score is
    the formula of the specification: busy time if present and rx time
    otherwise, tx time taken off busy and total when present.  With
    neither bit, the score is 0. *)
Theorem acs_survey_interference_factor_formula
    (record : freq_survey) (bandMinNoiseFloor : Z) :
  (present record SURVEY_HAS_CHAN_TIME_BUSY = true \/
   present record SURVEY_HAS_CHAN_TIME_RX = true ->
   acs_survey_interference_factor record bandMinNoiseFloor =
   spec_score record bandMinNoiseFloor) /\
  (present record SURVEY_HAS_CHAN_TIME_BUSY = false ->
   present record SURVEY_HAS_CHAN_TIME_RX = false ->
   acs_survey_interference_factor record bandMinNoiseFloor = ld_of_int 0).
Proof.
  unfold acs_survey_interference_factor, spec_score, spec_floor_term, present.
  split.
  - intros Hp.
    destruct (has_flag (filled record) SURVEY_HAS_CHAN_TIME_BUSY) eqn:B;
      destruct (has_flag (filled record) SURVEY_HAS_CHAN_TIME_RX) eqn:R;
      destruct (has_flag (filled record) SURVEY_HAS_CHAN_TIME_TX) eqn:T;
      try reflexivity; destruct Hp; discriminate.
  - intros -> ->. reflexivity.
Qed.

(** ** Cleanup *)

Lemma acs_cleanup_chan_clean (c : hostapd_channel_data F) :
  chan_clean (acs_cleanup_chan c).
Proof. split; reflexivity. Qed.

Lemma acs_cleanup_clean (i : hostapd_iface F) :
  survey_store_clean (acs_cleanup i).
Proof.
  unfold survey_store_clean, acs_cleanup. simpl.
  apply Forall_forall. intros c Hc. apply in_map_iff in Hc.
  destruct Hc as [c0 [<- _]]. apply acs_cleanup_chan_clean.
Qed.

Lemma acs_cleanup_conf (i : hostapd_iface F) : conf (acs_cleanup i) = conf i.
Proof. reflexivity. Qed.

Lemma acs_cleanup_chans_surveyed (i : hostapd_iface F) :
  chans_surveyed (acs_cleanup i) = 0.
Proof. reflexivity. Qed.

Lemma acs_fail_eq (s : acs_state F) :
  acs_fail s =
  (tt, {| st_iface := acs_cleanup (st_iface s);
          st_trace := st_trace s ++ [fail_line] |}).
Proof. reflexivity. Qed.

(** Unfolds the monadic code of the orchestration functions. *)
Ltac run :=
  unfold acs_scan_complete, acs_study, acs_study_commit,
    acs_study_set_channel, acs_study_options,
    acs_study_survey_based, acs_adjust_vht_sec_chan, acs_init,
    acs_request_scan, acs_fail, wpa_printf, bind, ret, emit, get_iface,
    put_iface;
  simpl.

Ltac split_if :=
  match goal with
  | |- context [hostapd_driver_scan ?a ?b] =>
      destruct (hostapd_driver_scan a b) eqn:?; simpl
  | |- context [hostapd_drv_get_survey ?a] =>
      destruct (hostapd_drv_get_survey a) eqn:?; simpl
  | |- context [hostapd_acs_completed ?a] =>
      destruct (hostapd_acs_completed a) eqn:?; simpl
  | |- context [if ?b then _ else _] => destruct b eqn:?; simpl
  | |- context [match ?o with Some _ => _ | None => _ end] =>
      destruct o as [[? ?]|] eqn:?; simpl
  end.

Lemma acs_study_commit_ends_in_cleanup (c : hostapd_channel_data F) (s : acs_state F) :
  exists i, st_iface (snd (acs_study_commit c s)) = acs_cleanup i.
Proof. run. repeat split_if; eexists; reflexivity. Qed.

Lemma acs_study_ends_in_cleanup (s : acs_state F) :
  exists i, st_iface (snd (acs_study s)) = acs_cleanup i.
Proof. run. repeat split_if; eexists; reflexivity. Qed.

Lemma acs_scan_complete_ends_in_cleanup (s : acs_state F) :
  exists i, st_iface (snd (acs_scan_complete s)) = acs_cleanup i.
Proof. run. repeat split_if; eexists; reflexivity. Qed.

Lemma acs_request_scan_failure (s : acs_state F) :
  fst (acs_request_scan s) < 0 ->
  exists i, st_iface (snd (acs_request_scan s)) = acs_cleanup i.
Proof. run. repeat split_if; intros Hr; [eexists; reflexivity|lia]. Qed.

Lemma acs_init_invalid (s : acs_state F) :
  HOSTAPD_CHAN_INVALID <> HOSTAPD_CHAN_ACS ->
  fst (acs_init s) = HOSTAPD_CHAN_INVALID ->
  exists i, st_iface (snd (acs_init s)) = acs_cleanup i.
Proof.
  intros Hd. run. repeat split_if; intros Hr;
    solve [eexists; reflexivity | congruence | lia].
Qed.

(** C7.  Every exit of a run leaves every channel of the current mode
    with an empty survey list and [min_nf == 0]: acs_fail, acs_study on
    each of its paths (failure of the study, no ideal channel, rejected or
    accepted by hostapd_acs_completed), acs_scan_complete, and
    acs_request_scan and acs_init when the scan request fails. *)
Theorem acs_terminal_states_clean :
  (forall s : acs_state F, survey_store_clean (st_iface (snd (acs_fail s)))) /\
  (forall s : acs_state F, survey_store_clean (st_iface (snd (acs_study s)))) /\
  (forall s : acs_state F, survey_store_clean (st_iface (snd (acs_scan_complete s)))) /\
  (forall s : acs_state F, fst (acs_request_scan s) < 0 ->
             survey_store_clean (st_iface (snd (acs_request_scan s)))) /\
  (forall s : acs_state F, HOSTAPD_CHAN_INVALID <> HOSTAPD_CHAN_ACS ->
             fst (acs_init s) = HOSTAPD_CHAN_INVALID ->
             survey_store_clean (st_iface (snd (acs_init s)))).
Proof.
  repeat split.
  - intros s. rewrite acs_fail_eq. apply acs_cleanup_clean.
  - intros s. destruct (acs_study_ends_in_cleanup s) as [i ->].
    apply acs_cleanup_clean.
  - intros s. destruct (acs_scan_complete_ends_in_cleanup s) as [i ->].
    apply acs_cleanup_clean.
  - intros s Hr. destruct (acs_request_scan_failure s Hr) as [i ->].
    apply acs_cleanup_clean.
  - intros s Hd Hr. destruct (acs_init_invalid s Hd Hr) as [i ->].
    apply acs_cleanup_clean.
Qed.

(** ** The commit step *)

(** C8.  After the channel is written, the result [r] of
    hostapd_acs_completed decides.  In every case acs_study ends with
    the store reset on the interface that call left: every survey list
    empty, every [min_nf] and [chans_surveyed] 0.  For
    HOSTAPD_CHAN_VALID it only runs acs_cleanup: nothing is printed
    after the call.  For every other [r] (HOSTAPD_CHAN_INVALID,
    HOSTAPD_CHAN_ACS and any other value) it prints the error and runs
    acs_fail, which prints its line. *)
Theorem acs_study_commit_outcomes
    (ideal_chan : hostapd_channel_data F) (s : acs_state F)
    (r : Z) (i' : hostapd_iface F) :
  let s1 := snd (acs_study_set_channel ideal_chan s) in
  let s' := snd (acs_study_commit ideal_chan s) in
  hostapd_acs_completed (st_iface s1) = (r, i') ->
  survey_store_clean (st_iface s') /\
  chans_surveyed (st_iface s') = 0 /\
  st_iface s' = acs_cleanup i' /\
  (r = HOSTAPD_CHAN_VALID ->
   st_trace s' = st_trace s1 ++ [ev_acs_completed] /\
   acs_study_commit ideal_chan s =
   (tt, {| st_iface := acs_cleanup i';
           st_trace := st_trace s1 ++ [ev_acs_completed] |})) /\
  (r <> HOSTAPD_CHAN_VALID ->
   st_trace s' = st_trace s1 ++ [ev_acs_completed; rejected_line; fail_line] /\
   acs_study_commit ideal_chan s =
   acs_fail {| st_iface := i';
               st_trace := (st_trace s1 ++ [ev_acs_completed])
                           ++ [rejected_line] |}).
Proof.
  intros s1 s' Hr. subst s'. unfold acs_study_commit, bind.
  destruct (acs_study_set_channel ideal_chan s) as [[] s1'] eqn:E.
  subst s1. simpl in Hr. unfold get_iface, emit, put_iface, wpa_printf. simpl.
  rewrite Hr. simpl.
  destruct (r =? HOSTAPD_CHAN_VALID) eqn:Er; simpl.
  - apply Z.eqb_eq in Er.
    split; [apply acs_cleanup_clean|]. split; [reflexivity|].
    split; [reflexivity|]. split.
    + intros _. split; reflexivity.
    + intros Hne. contradiction.
  - apply Z.eqb_neq in Er.
    split; [apply acs_cleanup_clean|]. split; [reflexivity|].
    split; [reflexivity|]. split.
    + intros Heq. contradiction.
    + intros _. split; [|reflexivity].
      rewrite <- !app_assoc. reflexivity.
Qed.

(** ** Selection with HT40- *)

Lemma acs_find_ideal_chan_ht40minus (i : hostapd_iface F) :
  c_true (ieee80211n (conf i)) = true ->
  secondary_channel (conf i) = -1 ->
  acs_find_ideal_chan i = None.
Proof.
  intros Hn Hs. unfold acs_find_ideal_chan. rewrite Hn, Hs. reflexivity.
Qed.

Ltac trace_suffix :=
  rewrite <- ?app_assoc; simpl; eexists; split; [reflexivity|];
  simpl; unfold fail_line; split;
  [ intuition auto
  | intros Habs; repeat (destruct Habs as [Habs|Habs]; try discriminate);
    contradiction ].

(** Where the study fails or no ideal channel is found, acs_study leaves
    the configuration as it was, runs acs_fail and does not call
    hostapd_acs_completed. *)
Lemma acs_study_fails (s : acs_state F) :
  (c_true (chans_surveyed (st_iface s)) = false \/
   (c_true (ieee80211n (conf (st_iface s))) = true /\
    secondary_channel (conf (st_iface s)) = -1)) ->
  conf (st_iface (snd (acs_study s))) = conf (st_iface s) /\
  exists tr, st_trace (snd (acs_study s)) = st_trace s ++ tr /\
             In fail_line tr /\ ~ In ev_acs_completed tr.
Proof.
  intros Hcase. run.
  destruct (negb (c_true (chans_surveyed (st_iface s)))) eqn:E1; simpl.
  { split; [reflexivity|]. trace_suffix. }
  destruct Hcase as [Hz|[Hn Hs]]; [rewrite Hz in E1; discriminate|].
  destruct (negb (acs_surveys_are_sufficient (st_iface s))) eqn:E2; simpl.
  { split; [reflexivity|]. trace_suffix. }
  rewrite acs_find_ideal_chan_ht40minus by assumption. simpl.
  split; [reflexivity|]. trace_suffix.
Qed.

(** C9.  When hostapd_drv_get_survey returns an error in
    acs_scan_complete, the callback ends with acs_fail run: the survey
    lists are empty, [min_nf] and [chans_surveyed] are 0, the
    configuration is the one the driver call left (no channel is
    written), and hostapd_acs_completed is not called. *)
Theorem acs_scan_complete_retrieval_error
    (s : acs_state F) (err : Z) (i1 : hostapd_iface F) :
  hostapd_drv_get_survey (st_iface s) = (err, i1) ->
  err <> 0 ->
  let s' := snd (acs_scan_complete s) in
  survey_store_clean (st_iface s') /\
  chans_surveyed (st_iface s') = 0 /\
  conf (st_iface s') = conf i1 /\
  exists tr, st_trace s' = st_trace s ++ tr /\
             In fail_line tr /\ ~ In ev_acs_completed tr.
Proof.
  intros Hdrv Herr s'. subst s'.
  assert (Hc : c_true err = true).
  { unfold c_true. apply Z.eqb_neq in Herr. now rewrite Herr. }
  unfold acs_scan_complete, bind, get_iface, emit, put_iface, wpa_printf, ret.
  simpl. rewrite Hdrv. simpl. rewrite Hc. simpl.
  split; [apply acs_cleanup_clean|].
  split; [reflexivity|]. split; [reflexivity|]. trace_suffix.
Qed.

(** C2, as the code has it.  With [ieee80211n] set and
    [secondary_channel == -1], acs_find_ideal_chan returns NULL, and
    acs_study ends in acs_fail with the configuration unchanged and
    without calling hostapd_acs_completed; acs_init does not look at the
    offset: it hands the scan request to the driver, and returns
    HOSTAPD_CHAN_ACS when the driver accepts it. *)
Theorem acs_ht40minus_rejected_in_study (s : acs_state F) :
  c_true (ieee80211n (conf (st_iface s))) = true ->
  secondary_channel (conf (st_iface s)) = -1 ->
  acs_find_ideal_chan (st_iface s) = None /\
  (conf (st_iface (snd (acs_study s))) = conf (st_iface s) /\
   exists tr, st_trace (snd (acs_study s)) = st_trace s ++ tr /\
              In fail_line tr /\ ~ In ev_acs_completed tr) /\
  In (ev_driver_scan (acs_scan_params (acs_cleanup (st_iface s))))
     (st_trace (snd (acs_init s))) /\
  (forall r i',
      hostapd_driver_scan
        (set_scan_cb (acs_cleanup (st_iface s)) cb_acs_scan_complete)
        (acs_scan_params (acs_cleanup (st_iface s))) = (r, i') ->
      0 <= r ->
      fst (acs_init s) = HOSTAPD_CHAN_ACS).
Proof.
  intros Hn Hs. split; [|split; [|split]].
  - now apply acs_find_ideal_chan_ht40minus.
  - apply acs_study_fails. right. split; assumption.
  - run. repeat split_if; rewrite ?in_app_iff; simpl; auto 8.
  - intros r i' Hscan Hr.
    run. rewrite Hscan. simpl.
    destruct (r <? 0) eqn:E; [apply Z.ltb_lt in E; lia|reflexivity].
Qed.

(** ** Lookup of a channel by frequency *)

Lemma acs_usable_chan_true (c : hostapd_channel_data F) :
  acs_usable_chan c = true <->
  survey_list c <> [] /\ has_flag (flag c) HOSTAPD_CHAN_DISABLED = false.
Proof.
  unfold acs_usable_chan.
  destruct (survey_list c); destruct (has_flag (flag c) HOSTAPD_CHAN_DISABLED);
    split; intros Hu; try discriminate; try (destruct Hu; congruence).
  split; [discriminate|reflexivity].
Qed.

Lemma find_chan_loop_none (l : list (hostapd_channel_data F)) (idx : nat) (f : Z) :
  find_chan_loop l idx f = None <->
  forall c, In c l -> acs_usable_chan c = true -> freq c <> f.
Proof.
  revert idx. induction l as [|c tl IH]; intros idx; simpl.
  - split; [intros _ ? []|reflexivity].
  - destruct (acs_usable_chan c) eqn:U; simpl.
    + destruct (freq c =? f) eqn:E.
      * split; [discriminate|]. intros Hall. apply Z.eqb_eq in E.
        exfalso. apply (Hall c); auto.
      * rewrite IH. apply Z.eqb_neq in E. split.
        -- intros Htl x [<-|Hx]; auto.
        -- intros Hall x Hx. apply Hall. now right.
    + rewrite IH. split.
      * intros Htl x [<-|Hx]; [congruence|auto].
      * intros Hall x Hx. apply Hall. now right.
Qed.

Lemma find_chan_loop_some (l : list (hostapd_channel_data F)) (idx : nat) (f : Z)
    (k : nat) (c : hostapd_channel_data F) :
  find_chan_loop l idx f = Some (k, c) ->
  exists p, k = (idx + p)%nat /\ nth_error l p = Some c /\
    acs_usable_chan c = true /\ freq c = f /\
    forall p' c', (p' < p)%nat -> nth_error l p' = Some c' ->
      acs_usable_chan c' = true -> freq c' <> f.
Proof.
  revert idx. induction l as [|a tl IH]; intros idx; simpl; [discriminate|].
  assert (Hrec : find_chan_loop tl (S idx) f = Some (k, c) ->
                 (acs_usable_chan a = true -> freq a <> f) ->
                 exists p, k = (idx + p)%nat /\ nth_error (a :: tl) p = Some c /\
                   acs_usable_chan c = true /\ freq c = f /\
                   forall p' c', (p' < p)%nat -> nth_error (a :: tl) p' = Some c' ->
                     acs_usable_chan c' = true -> freq c' <> f).
  { intros Hf Ha. destruct (IH _ Hf) as [p [-> [Hn [Hu [Hq Hfirst]]]]].
    exists (S p). split; [lia|]. split; [exact Hn|].
    split; [exact Hu|]. split; [exact Hq|].
    intros [|p'] c' Hlt Hn'; simpl in Hn'.
    - injection Hn' as <-. exact Ha.
    - apply (Hfirst p'); [lia|exact Hn']. }
  destruct (acs_usable_chan a) eqn:U; simpl.
  - destruct (freq a =? f) eqn:E.
    + intros [= <- <-]. apply Z.eqb_eq in E. exists 0%nat.
      split; [lia|]. split; [reflexivity|]. split; [exact U|].
      split; [exact E|]. intros p' c' Hlt. lia.
    + intros Hf. apply Hrec; [exact Hf|]. intros _. now apply Z.eqb_neq.
  - intros Hf. apply Hrec; [exact Hf|discriminate].
Qed.

Lemma acs_find_chan_none (i : hostapd_iface F) (f : Z) :
  acs_find_chan i f = None <->
  forall c, In c (channels (current_mode i)) ->
    acs_usable_chan c = true -> freq c <> f.
Proof. apply find_chan_loop_none. Qed.

Lemma acs_find_chan_some (i : hostapd_iface F) (f : Z) (k : nat)
    (c : hostapd_channel_data F) :
  acs_find_chan i f = Some (k, c) ->
  nth_error (channels (current_mode i)) k = Some c /\
  acs_usable_chan c = true /\ freq c = f /\
  forall k' c', (k' < k)%nat ->
    nth_error (channels (current_mode i)) k' = Some c' ->
    acs_usable_chan c' = true -> freq c' <> f.
Proof.
  intros Hf. apply find_chan_loop_some in Hf.
  destruct Hf as [p [-> Hrest]]. exact Hrest.
Qed.

(** ** The bandwidth loop *)

Lemma bandwidth_loop_bound (i : hostapd_iface F) (c : hostapd_channel_data F)
    (fuel : nat) : forall (j : Z) (x : F),
  j <= fst (bandwidth_loop i c j fuel x) <= j + Z.of_nat fuel.
Proof.
  induction fuel as [|fuel IH]; intros j x; simpl; [lia|].
  destruct (acs_find_chan i (freq c + j * 20)) as [[k a]|]; simpl; [|lia].
  specialize (IH (j + 1) (ld_add x (survey_interference_factor a))). lia.
Qed.

Lemma bandwidth_loop_complete (i : hostapd_iface F) (c : hostapd_channel_data F)
    (fuel : nat) : forall (j : Z) (x : F),
  fst (bandwidth_loop i c j fuel x) = j + Z.of_nat fuel ->
  forall m, (m < fuel)%nat ->
    acs_find_chan i (freq c + (j + Z.of_nat m) * 20) <> None.
Proof.
  induction fuel as [|fuel IH]; intros j x Hend m Hm; [lia|].
  simpl in Hend.
  destruct (acs_find_chan i (freq c + j * 20)) as [[k a]|] eqn:E;
    simpl in Hend; [|lia].
  destruct m as [|m].
  - replace (j + Z.of_nat 0) with j by lia. rewrite E. discriminate.
  - replace (j + Z.of_nat (S m)) with (j + 1 + Z.of_nat m) by lia.
    apply (IH (j + 1) (ld_add x (survey_interference_factor a))); lia.
Qed.

Lemma acs_chan_factor_some (i : hostapd_iface F) (n : Z)
    (c : hostapd_channel_data F) (t : F) :
  acs_chan_factor i n c = Some t ->
  acs_usable_chan c = true /\
  forall j, 1 <= j < n -> acs_find_chan i (freq c + j * 20) <> None.
Proof.
  unfold acs_chan_factor.
  destruct (acs_usable_chan c); simpl; [|discriminate].
  destruct (_ && negb (acs_usable_ht40_chan c)); [discriminate|].
  destruct (bandwidth_loop i c 1 (Z.to_nat (n - 1)) (survey_interference_factor c))
    as [jf x] eqn:E.
  destruct (jf =? n) eqn:En; simpl; [|discriminate].
  intros _. split; [reflexivity|]. intros j Hj.
  apply Z.eqb_eq in En.
  pose proof (bandwidth_loop_bound i c (Z.to_nat (n - 1)) 1
                (survey_interference_factor c)) as Hb.
  rewrite E in Hb. cbn [fst] in Hb.
  replace j with (1 + Z.of_nat (Z.to_nat (j - 1))) by lia.
  apply (bandwidth_loop_complete i c (Z.to_nat (n - 1)) 1
           (survey_interference_factor c)); [|lia].
  rewrite E. cbn [fst]. lia.
Qed.

(** ** The main loop, for any arithmetic *)

Lemma ideal_chan_loop_result (i : hostapd_iface F) (n : Z)
    (l : list (hostapd_channel_data F)) :
  forall (idx : nat) (ic0 : option (chan_ptr F)) (f0 : F)
         (k : nat) (c : hostapd_channel_data F) (t : F),
  ideal_chan_loop i n l idx ic0 f0 = (Some (k, c), t) ->
  (ic0 = Some (k, c) /\ t = f0) \/
  exists p, k = (idx + p)%nat /\ nth_error l p = Some c /\
            acs_chan_factor i n c = Some t.
Proof.
  induction l as [|a tl IH]; intros idx ic0 f0 k c t; simpl.
  - intros [= -> ->]. left. split; reflexivity.
  - assert (Hshift : forall ic f,
      ((ic = Some (k, c) /\ t = f) \/
       exists p, k = (S idx + p)%nat /\ nth_error tl p = Some c /\
                 acs_chan_factor i n c = Some t) ->
      (ic = Some (k, c) /\ t = f) \/
      exists p, k = (idx + p)%nat /\ nth_error (a :: tl) p = Some c /\
                acs_chan_factor i n c = Some t).
    { intros ic f [Hl|[p [-> [Hn Hf]]]]; [now left|right].
      exists (S p). split; [lia|]. split; [exact Hn|exact Hf]. }
    destruct (acs_chan_factor i n a) as [fa|] eqn:Ea.
    + destruct (match ic0 with None => true | Some _ => false end || ld_lt fa f0).
      * intros Hloop. apply IH in Hloop.
        destruct Hloop as [[[= <- <-] ->]|Hex].
        -- right. exists 0%nat. split; [lia|]. split; [reflexivity|exact Ea].
        -- destruct (Hshift None f0 (or_intror Hex)) as [[Habs _]|Hr];
             [discriminate|right; exact Hr].
      * intros Hloop. apply IH in Hloop. now apply Hshift.
    + intros Hloop. apply IH in Hloop. now apply Hshift.
Qed.

Lemma acs_find_ideal_chan_some (i : hostapd_iface F) (k : nat)
    (c : hostapd_channel_data F) :
  acs_find_ideal_chan i = Some (k, c) ->
  nth_error (channels (current_mode i)) k = Some c /\
  exists t, acs_chan_factor i (acs_n_chans (conf i)) c = Some t.
Proof.
  unfold acs_find_ideal_chan.
  destruct (c_true (ieee80211n (conf i)) && (secondary_channel (conf i) =? -1));
    [discriminate|].
  destruct (ideal_chan_loop i (acs_n_chans (conf i)) (channels (current_mode i))
              0 None (ld_of_int 0)) as [res t] eqn:E.
  simpl. intros ->. apply ideal_chan_loop_result in E.
  destruct E as [[Habs _]|[p [-> [Hn Hf]]]]; [discriminate|].
  split; [exact Hn|]. now exists t.
Qed.

(** C4.  A channel is not returned when one of the sub-channels
    [freq + j * 20], [1 <= j < n_chans], has no channel in the table that
    is enabled and has a non-empty survey list; in particular with
    [n_chans == 2] when no such channel is at [freq + 20]. *)
Theorem acs_find_ideal_chan_skips_narrow
    (i : hostapd_iface F) (k : nat) (c : hostapd_channel_data F) :
  (forall j, 1 <= j < acs_n_chans (conf i) ->
     (forall c', In c' (channels (current_mode i)) ->
        has_flag (flag c') HOSTAPD_CHAN_DISABLED = false ->
        survey_list c' <> [] -> freq c' <> freq c + j * 20) ->
     acs_find_ideal_chan i <> Some (k, c)) /\
  (acs_n_chans (conf i) = 2 ->
   (forall c', In c' (channels (current_mode i)) -> freq c' <> freq c + 20) ->
   acs_find_ideal_chan i <> Some (k, c)).
Proof.
  assert (Hgen : forall j, 1 <= j < acs_n_chans (conf i) ->
     (forall c', In c' (channels (current_mode i)) ->
        has_flag (flag c') HOSTAPD_CHAN_DISABLED = false ->
        survey_list c' <> [] -> freq c' <> freq c + j * 20) ->
     acs_find_ideal_chan i <> Some (k, c)).
  { intros j Hj Hmiss Hsel.
    apply acs_find_ideal_chan_some in Hsel. destruct Hsel as [_ [t Ht]].
    apply acs_chan_factor_some in Ht. destruct Ht as [_ Hsub].
    apply (Hsub j Hj). apply acs_find_chan_none.
    intros c' Hin Hu. apply acs_usable_chan_true in Hu.
    destruct Hu as [Hl Hd]. now apply Hmiss. }
  split; [exact Hgen|].
  intros Hn Hmiss. apply (Hgen 1); [lia|].
  intros c' Hin _ _. replace (freq c + 1 * 20) with (freq c + 20) by lia.
  now apply Hmiss.
Qed.

(** ** Adjacent channels on 2.4 GHz *)

Lemma adjacent_loop_rounds (i : hostapd_iface F) (c : hostapd_channel_data F)
    (fuel : nat) : forall (start : nat) (x : F),
  adjacent_loop i c (Z.of_nat start) fuel x =
  fold_left (fun acc j => adjacent_round i (freq c + j * 20) acc)
    (map Z.of_nat (seq start fuel)) x.
Proof.
  induction fuel as [|fuel IH]; intros start x; simpl; [reflexivity|].
  replace (Z.of_nat start + 1) with (Z.of_nat (S start)) by lia.
  rewrite IH. reflexivity.
Qed.

Lemma acs_n_chans_one (cf : hostapd_config) :
  acs_n_chans cf = 1 ->
  c_true (ieee80211n cf) && c_true (secondary_channel cf) = false.
Proof.
  unfold acs_n_chans.
  destruct (c_true (ieee80211ac cf) && (vht_oper_chwidth cf =? 1));
    [discriminate|].
  destruct (c_true (ieee80211n cf) && c_true (secondary_channel cf));
    [discriminate|reflexivity].
Qed.

Lemma add_adjacent_none (i : hostapd_iface F) (f : Z) (x : F) :
  (forall c', In c' (channels (current_mode i)) ->
     acs_usable_chan c' = true -> freq c' <> f) ->
  add_adjacent i f x = x.
Proof.
  intros Hmiss. apply acs_find_chan_none in Hmiss.
  unfold add_adjacent. rewrite Hmiss. reflexivity.
Qed.

Lemma add_adjacent_some (i : hostapd_iface F) (f : Z) (x : F) :
  (exists c', In c' (channels (current_mode i)) /\
     acs_usable_chan c' = true /\ freq c' = f) ->
  exists k a, acs_find_chan i f = Some (k, a) /\
    nth_error (channels (current_mode i)) k = Some a /\
    acs_usable_chan a = true /\ freq a = f /\
    add_adjacent i f x = ld_add x (survey_interference_factor a).
Proof.
  intros [c' [Hin [Hu Hf]]].
  destruct (acs_find_chan i f) as [[k a]|] eqn:E.
  - exists k, a. destruct (acs_find_chan_some i f k a E) as [Hn [Hua [Hfa _]]].
    split; [reflexivity|]. split; [exact Hn|]. split; [exact Hua|].
    split; [exact Hfa|]. unfold add_adjacent. rewrite E. reflexivity.
  - exfalso. rewrite acs_find_chan_none in E. now apply (E c').
Qed.

Lemma same_freq_same_chan (l : list (hostapd_channel_data F))
    (a b : hostapd_channel_data F) :
  NoDup (map freq l) -> In a l -> In b l -> freq a = freq b -> a = b.
Proof.
  induction l as [|c tl IH]; simpl; intros Hnd Ha Hb Hf; [contradiction|].
  inversion Hnd as [|x xs Hnotin Hnd']; subst.
  destruct Ha as [<-|Ha]; destruct Hb as [<-|Hb]; auto.
  - exfalso. apply Hnotin. rewrite Hf. now apply in_map.
  - exfalso. apply Hnotin. rewrite <- Hf. now apply in_map.
Qed.

(** C10.  In mode B or G the total of a channel that is not skipped is
    the total of the bandwidth loop followed by one round of lookups at
    [-5], [-10], [+5], [+10] MHz around [freq + j * 20] for each
    [j = 0 .. n_chans - 1]; with [n_chans == 1] it is the channel's own
    factor followed by the round around its own frequency.  A lookup at a
    frequency where no channel is enabled with a non-empty survey list
    leaves the total as it is; otherwise it adds the factor of the
    channel found, which is enabled and has surveys, and which is the
    only channel at that frequency when the frequencies of the table are
    distinct; a disabled channel or one without surveys is never
    found. *)
Theorem acs_chan_factor_adjacent_2ghz
    (i : hostapd_iface F) (c : hostapd_channel_data F) :
  mode (current_mode i) = HOSTAPD_MODE_IEEE80211B \/
  mode (current_mode i) = HOSTAPD_MODE_IEEE80211G ->
  (forall t, acs_chan_factor i (acs_n_chans (conf i)) c = Some t ->
     t = fold_left (fun acc j => adjacent_round i (freq c + j * 20) acc)
           (map Z.of_nat (seq 0 (Z.to_nat (acs_n_chans (conf i)))))
           (snd (bandwidth_loop i c 1 (Z.to_nat (acs_n_chans (conf i) - 1))
                   (survey_interference_factor c)))) /\
  (acs_n_chans (conf i) = 1 -> acs_usable_chan c = true ->
   acs_chan_factor i (acs_n_chans (conf i)) c =
   Some (adjacent_round i (freq c) (survey_interference_factor c))) /\
  (forall f x,
     (forall c', In c' (channels (current_mode i)) ->
        acs_usable_chan c' = true -> freq c' <> f) ->
     add_adjacent i f x = x) /\
  (forall f x,
     (exists c', In c' (channels (current_mode i)) /\
        acs_usable_chan c' = true /\ freq c' = f) ->
     exists k a, acs_find_chan i f = Some (k, a) /\
       nth_error (channels (current_mode i)) k = Some a /\
       acs_usable_chan a = true /\ freq a = f /\
       add_adjacent i f x = ld_add x (survey_interference_factor a)) /\
  (forall f k a c',
     NoDup (map freq (channels (current_mode i))) ->
     acs_find_chan i f = Some (k, a) ->
     In c' (channels (current_mode i)) -> freq c' = f -> c' = a) /\
  (forall c' : hostapd_channel_data F,
     survey_list c' = [] \/ has_flag (flag c') HOSTAPD_CHAN_DISABLED = true ->
     acs_usable_chan c' = false).
Proof.
  intros Hmode.
  assert (Hbg : (mode (current_mode i) =? HOSTAPD_MODE_IEEE80211B)
                || (mode (current_mode i) =? HOSTAPD_MODE_IEEE80211G) = true).
  { apply orb_true_iff. destruct Hmode as [-> | ->];
      [left|right]; apply Z.eqb_refl. }
  split; [|split; [|split; [|split; [|split]]]].
  - intros t. unfold acs_chan_factor. rewrite Hbg.
    destruct (negb (acs_usable_chan c)); [discriminate|].
    destruct (_ && negb (acs_usable_ht40_chan c)); [discriminate|].
    destruct (bandwidth_loop i c 1 (Z.to_nat (acs_n_chans (conf i) - 1))
                (survey_interference_factor c)) as [jf x].
    destruct (negb (jf =? acs_n_chans (conf i))); [discriminate|].
    intros [= <-]. cbn [snd].
    apply (adjacent_loop_rounds i c (Z.to_nat (acs_n_chans (conf i))) 0 x).
  - intros Hn Hu. pose proof (acs_n_chans_one (conf i) Hn) as Hht.
    rewrite Hn. unfold acs_chan_factor. rewrite Hbg, Hu.
    rewrite <- !andb_assoc.
    rewrite (andb_assoc (c_true (ieee80211n (conf i)))), Hht.
    rewrite andb_false_r. simpl.
    rewrite !Z.add_0_r. reflexivity.
  - apply add_adjacent_none.
  - apply add_adjacent_some.
  - intros f k a c' Hnd Hfind Hin Hf.
    destruct (acs_find_chan_some i f k a Hfind) as [Hn [_ [Hfa _]]].
    apply nth_error_In in Hn.
    apply (same_freq_same_chan (channels (current_mode i))); auto.
    congruence.
  - intros c' [Hl|Hd]; unfold acs_usable_chan.
    + rewrite Hl. reflexivity.
    + rewrite Hd. destruct (survey_list c'); reflexivity.
Qed.

(** ** The selection reads the configuration and the mode only *)

Section SameInputs.

Variables i1 i2 : hostapd_iface F.
Hypothesis same_conf : conf i1 = conf i2.
Hypothesis same_mode : current_mode i1 = current_mode i2.

Lemma acs_find_chan_ext (f : Z) : acs_find_chan i1 f = acs_find_chan i2 f.
Proof. unfold acs_find_chan. rewrite same_mode. reflexivity. Qed.

Lemma bandwidth_loop_ext (c : hostapd_channel_data F) (fuel : nat) :
  forall j x, bandwidth_loop i1 c j fuel x = bandwidth_loop i2 c j fuel x.
Proof.
  induction fuel as [|fuel IH]; intros j x; simpl; [reflexivity|].
  rewrite acs_find_chan_ext.
  destruct (acs_find_chan i2 (freq c + j * 20)) as [[k a]|]; auto.
Qed.

Lemma add_adjacent_ext (f : Z) (x : F) :
  add_adjacent i1 f x = add_adjacent i2 f x.
Proof. unfold add_adjacent. rewrite acs_find_chan_ext. reflexivity. Qed.

Lemma adjacent_loop_ext (c : hostapd_channel_data F) (fuel : nat) :
  forall j x, adjacent_loop i1 c j fuel x = adjacent_loop i2 c j fuel x.
Proof.
  induction fuel as [|fuel IH]; intros j x; simpl; [reflexivity|].
  rewrite !add_adjacent_ext. apply IH.
Qed.

Lemma acs_chan_factor_ext (n : Z) (c : hostapd_channel_data F) :
  acs_chan_factor i1 n c = acs_chan_factor i2 n c.
Proof.
  unfold acs_chan_factor.
  rewrite same_conf, same_mode, bandwidth_loop_ext.
  destruct (bandwidth_loop i2 c 1 (Z.to_nat (n - 1))
              (survey_interference_factor c)) as [jf x].
  rewrite adjacent_loop_ext. reflexivity.
Qed.

Lemma ideal_chan_loop_ext (n : Z) (l : list (hostapd_channel_data F)) :
  forall idx ic f,
    ideal_chan_loop i1 n l idx ic f = ideal_chan_loop i2 n l idx ic f.
Proof.
  induction l as [|a tl IH]; intros idx ic f; simpl; [reflexivity|].
  rewrite acs_chan_factor_ext.
  destruct (acs_chan_factor i2 n a); [|apply IH].
  destruct (_ || _); apply IH.
Qed.

Lemma acs_find_ideal_chan_ext :
  acs_find_ideal_chan i1 = acs_find_ideal_chan i2.
Proof.
  unfold acs_find_ideal_chan.
  rewrite same_conf, same_mode, ideal_chan_loop_ext. reflexivity.
Qed.

End SameInputs.

End AcsTheory.

(** * The order of scores and totals *)

Lemma Rpower_pos (x y : R) : (0 < Rpower x y)%R.
Proof. unfold Rpower. apply exp_pos. Qed.

Lemma nth_error_snoc {A : Type} (pre : list A) (a : A) (k : nat) (x : A) :
  nth_error (pre ++ [a]) k = Some x ->
  ((k < List.length pre)%nat /\ nth_error pre k = Some x) \/
  (k = List.length pre /\ x = a).
Proof.
  intros Hn. destruct (Nat.lt_ge_cases k (List.length pre)) as [Hlt|Hge].
  - left. split; [exact Hlt|]. now rewrite nth_error_app1 in Hn.
  - right. rewrite nth_error_app2 in Hn by exact Hge.
    destruct (k - List.length pre)%nat as [|d] eqn:E; simpl in Hn.
    + injection Hn as <-. split; [lia|reflexivity].
    + destruct d; discriminate.
Qed.

Lemma nth_error_snoc_last {A : Type} (pre : list A) (a : A) :
  nth_error (pre ++ [a]) (List.length pre) = Some a.
Proof. rewrite nth_error_app2, Nat.sub_diag by lia. reflexivity. Qed.

Section OrderedScores.

Context {H : headers}.
Context {F : Type} {LD : LongDouble F} {CMP : LongDoubleCmp F}.
Context {ORD : LongDoubleOrder F} {ARITH : LongDoubleArith F}.

(** ** The score of one record *)

Lemma acs_survey_interference_factor_terms (record : freq_survey) (m : Z) :
  present record SURVEY_HAS_CHAN_TIME_BUSY = true \/
  present record SURVEY_HAS_CHAN_TIME_RX = true ->
  acs_survey_interference_factor record m =
  ld_add (spec_floor_term record)
    (ld_mul (spec_ratio record) (spec_noise_term record m)).
Proof.
  unfold acs_survey_interference_factor, spec_floor_term, spec_ratio,
    spec_noise_term, present.
  intros Hp.
  destruct (has_flag (filled record) SURVEY_HAS_CHAN_TIME_BUSY) eqn:B;
    destruct (has_flag (filled record) SURVEY_HAS_CHAN_TIME_RX) eqn:Rx;
    destruct (has_flag (filled record) SURVEY_HAS_CHAN_TIME_TX) eqn:T;
    try reflexivity; destruct Hp; discriminate.
Qed.

(** C3, as the code has it.  For a sufficient record for which
    [10^(nf/5)] is finite and not negative, the ratio [busy/total] that
    the code computes (busy time, or rx time when busy time is absent,
    and total time, the tx time taken off both when present) is finite
    and not negative, and the factor [2^(10^(nf/10) - 10^(minNf/10))] is
    finite and not negative, the score is at least [10^(nf/5)].  This
    holds in any arithmetic that satisfies [LongDoubleArith]: in
    IEEE 754 binary64, with rounding, as over the real numbers. *)
Theorem acs_survey_interference_factor_lower_bound
    (record : freq_survey) (minNf : Z) :
  acs_survey_is_sufficient record = true ->
  ld_finite (spec_floor_term record) = true ->
  ld_le (ld_of_int 0) (spec_floor_term record) = true ->
  ld_finite (spec_ratio record) = true ->
  ld_le (ld_of_int 0) (spec_ratio record) = true ->
  ld_finite (spec_noise_term record minNf) = true ->
  ld_le (ld_of_int 0) (spec_noise_term record minNf) = true ->
  ld_le (spec_floor_term record)
        (acs_survey_interference_factor record minNf) = true.
Proof.
  intros Hs Hfloor Hfloor0 Hrf Hr Hnf Hn.
  assert (Hp : present record SURVEY_HAS_CHAN_TIME_BUSY = true \/
               present record SURVEY_HAS_CHAN_TIME_RX = true).
  { unfold acs_survey_is_sufficient, present in *.
    destruct (has_flag (filled record) SURVEY_HAS_NF);
      destruct (has_flag (filled record) SURVEY_HAS_CHAN_TIME);
      destruct (has_flag (filled record) SURVEY_HAS_CHAN_TIME_BUSY);
      destruct (has_flag (filled record) SURVEY_HAS_CHAN_TIME_RX);
      simpl in Hs; try discriminate; auto. }
  rewrite (acs_survey_interference_factor_terms record minNf Hp).
  apply ld_add_nonneg; [exact Hfloor|exact Hfloor0|].
  now apply ld_mul_nonneg.
Qed.

(** ** The first least total *)

Lemma first_least_skip (i : hostapd_iface F) (n : Z)
    (pre : list (hostapd_channel_data F)) (a : hostapd_channel_data F)
    (ic : option (chan_ptr F)) (f : F) :
  acs_chan_factor i n a = None ->
  first_least i n pre ic f -> first_least i n (pre ++ [a]) ic f.
Proof.
  intros Ha. destruct ic as [[k c]|]; simpl.
  - intros [Hn [Hf Hmin]].
    assert (Hk : (k < List.length pre)%nat).
    { apply nth_error_Some. congruence. }
    split; [now rewrite nth_error_app1|]. split; [exact Hf|].
    intros k' c' t' Hn' Hf'.
    destruct (nth_error_snoc _ _ _ _ Hn') as [[_ Hpre]|[_ ->]];
      [now apply (Hmin k' c')|congruence].
  - intros Hnone c Hin. apply in_app_iff in Hin.
    destruct Hin as [Hin|[<-|[]]]; auto.
Qed.

Lemma first_least_keep (i : hostapd_iface F) (n : Z)
    (pre : list (hostapd_channel_data F)) (a : hostapd_channel_data F)
    (k : nat) (c : hostapd_channel_data F) (f fa : F) :
  acs_chan_factor i n a = Some fa -> ld_lt fa f = false ->
  first_least i n pre (Some (k, c)) f ->
  first_least i n (pre ++ [a]) (Some (k, c)) f.
Proof.
  intros Ha Hge [Hn [Hf Hmin]]. simpl.
  assert (Hk : (k < List.length pre)%nat).
  { apply nth_error_Some. congruence. }
  split; [now rewrite nth_error_app1|]. split; [exact Hf|].
  intros k' c' t' Hn' Hf'.
  destruct (nth_error_snoc _ _ _ _ Hn') as [[_ Hpre]|[-> ->]].
  - now apply (Hmin k' c').
  - assert (t' = fa) by congruence. subst t'. split; [exact Hge|lia].
Qed.

Lemma first_least_replace (i : hostapd_iface F) (n : Z)
    (pre : list (hostapd_channel_data F)) (a : hostapd_channel_data F)
    (ic : option (chan_ptr F)) (f fa : F) :
  acs_chan_factor i n a = Some fa ->
  match ic with None => True | Some _ => ld_lt fa f = true end ->
  first_least i n pre ic f ->
  first_least i n (pre ++ [a]) (Some (List.length pre, a)) fa.
Proof.
  intros Ha Hlt Hinv. simpl.
  split; [apply nth_error_snoc_last|]. split; [exact Ha|].
  intros k' c' t' Hn' Hf'.
  destruct (nth_error_snoc _ _ _ _ Hn') as [[Hk' Hpre]|[-> ->]].
  - destruct ic as [[k c]|]; simpl in Hinv.
    + destruct Hinv as [_ [_ Hmin]].
      destruct (Hmin k' c' t' Hpre Hf') as [Hnot _]. split.
      * destruct (ld_lt t' fa) eqn:E; [|reflexivity].
        rewrite (ld_lt_trans t' fa f E Hlt) in Hnot. discriminate.
      * intros _. destruct (ld_le t' fa) eqn:E; [|reflexivity].
        rewrite (ld_le_lt_trans t' fa f E Hlt) in Hnot. discriminate.
    + apply nth_error_In in Hpre. rewrite (Hinv c' Hpre) in Hf'. discriminate.
  - assert (t' = fa) by congruence. subst t'.
    split; [apply ld_lt_irrefl|lia].
Qed.

Lemma ideal_chan_loop_first_least (i : hostapd_iface F) (n : Z)
    (l : list (hostapd_channel_data F)) :
  forall (pre : list (hostapd_channel_data F)) (ic : option (chan_ptr F))
         (f : F) (res : option (chan_ptr F)) (t : F),
  first_least i n pre ic f ->
  ideal_chan_loop i n l (List.length pre) ic f = (res, t) ->
  first_least i n (pre ++ l) res t.
Proof.
  induction l as [|a tl IH]; intros pre ic f res t Hinv Hloop.
  - simpl in Hloop. injection Hloop as <- <-. now rewrite app_nil_r.
  - replace (pre ++ a :: tl) with ((pre ++ [a]) ++ tl)
      by (rewrite <- app_assoc; reflexivity).
    assert (Hlen : List.length (pre ++ [a]) = S (List.length pre)).
    { rewrite length_app. simpl. lia. }
    cbn [ideal_chan_loop] in Hloop.
    destruct (acs_chan_factor i n a) as [fa|] eqn:Ea.
    + destruct ic as [[k c]|]; cbn [orb] in Hloop.
      * destruct (ld_lt fa f) eqn:L.
        -- apply (IH (pre ++ [a]) (Some (List.length pre, a)) fa).
           ++ now apply (first_least_replace i n pre a (Some (k, c)) f fa).
           ++ rewrite Hlen. exact Hloop.
        -- apply (IH (pre ++ [a]) (Some (k, c)) f).
           ++ now apply (first_least_keep i n pre a k c f fa).
           ++ rewrite Hlen. exact Hloop.
      * apply (IH (pre ++ [a]) (Some (List.length pre, a)) fa).
        -- now apply (first_least_replace i n pre a None f fa).
        -- rewrite Hlen. exact Hloop.
    + apply (IH (pre ++ [a]) ic f).
      * now apply first_least_skip.
      * rewrite Hlen. exact Hloop.
Qed.

Lemma acs_find_ideal_chan_loop_least (i : hostapd_iface F) :
  c_true (ieee80211n (conf i)) && (secondary_channel (conf i) =? -1) = false ->
  exists t, first_least i (acs_n_chans (conf i)) (channels (current_mode i))
              (acs_find_ideal_chan i) t.
Proof.
  intros Hht. unfold acs_find_ideal_chan. rewrite Hht.
  destruct (ideal_chan_loop i (acs_n_chans (conf i))
              (channels (current_mode i)) 0 None (ld_of_int 0)) as [res t] eqn:E.
  exists t. cbn [fst].
  apply (ideal_chan_loop_first_least i (acs_n_chans (conf i))
           (channels (current_mode i)) [] None (ld_of_int 0) res t);
    [|exact E].
  intros c [].
Qed.

Lemma first_least_minimum (i : hostapd_iface F) (n : Z)
    (l : list (hostapd_channel_data F)) (k : nat)
    (c : hostapd_channel_data F) (t : F) :
  first_least i n l (Some (k, c)) t ->
  totals_comparable i n l ->
  forall k' c' t',
    nth_error l k' = Some c' -> acs_chan_factor i n c' = Some t' ->
    ld_le t t' = true /\ ((k' < k)%nat -> ld_lt t t' = true).
Proof.
  intros [Hk [Hf Hleast]] Hcmp k' c' t' Hk' Hf'.
  destruct (Hleast k' c' t' Hk' Hf') as [Hnlt Hnle].
  pose proof (nth_error_In _ _ Hk) as Hin.
  pose proof (nth_error_In _ _ Hk') as Hin'.
  split.
  - destruct (Hcmp c c' t t' Hin Hin' Hf Hf') as [Hle|Hlt];
      [exact Hle|congruence].
  - intros Hlt. specialize (Hnle Hlt).
    destruct (Hcmp c' c t' t Hin' Hin Hf' Hf) as [Hle|Hgt];
      [congruence|exact Hgt].
Qed.

(** C5, as the code has it.  The channel acs_find_ideal_chan returns is
    not skipped, no channel of the table has a total that compares [<]
    to its total and no channel at a lower index has a total that
    compares [<=] to it: a later channel with an equal total does not
    replace an earlier one.  When no total is a NaN (any two totals
    compare) it is the first channel that attains the least total.  It
    returns NULL only for HT40- or when every channel is skipped, and the
    result is a function of the configuration and the mode's table.
    This holds in any arithmetic that satisfies [LongDoubleOrder]. *)
Theorem acs_find_ideal_chan_first_minimum (i : hostapd_iface F) :
  (forall k c, acs_find_ideal_chan i = Some (k, c) ->
     exists t,
       first_least i (acs_n_chans (conf i)) (channels (current_mode i))
         (Some (k, c)) t /\
       (totals_comparable i (acs_n_chans (conf i))
          (channels (current_mode i)) ->
        forall k' c' t',
          nth_error (channels (current_mode i)) k' = Some c' ->
          acs_chan_factor i (acs_n_chans (conf i)) c' = Some t' ->
          ld_le t t' = true /\ ((k' < k)%nat -> ld_lt t t' = true))) /\
  (acs_find_ideal_chan i = None ->
     (c_true (ieee80211n (conf i)) = true /\ secondary_channel (conf i) = -1) \/
     forall c, In c (channels (current_mode i)) ->
       acs_chan_factor i (acs_n_chans (conf i)) c = None) /\
  (forall i2 : hostapd_iface F,
     conf i2 = conf i -> current_mode i2 = current_mode i ->
     acs_find_ideal_chan i2 = acs_find_ideal_chan i).
Proof.
  destruct (c_true (ieee80211n (conf i)) && (secondary_channel (conf i) =? -1))
    eqn:Hht.
  - apply andb_true_iff in Hht. destruct Hht as [Hn Hs].
    apply Z.eqb_eq in Hs.
    rewrite (acs_find_ideal_chan_ht40minus i Hn Hs).
    split; [discriminate|]. split; [auto|].
    intros i2 Hc Hm. rewrite <- (acs_find_ideal_chan_ht40minus i Hn Hs).
    now apply acs_find_ideal_chan_ext.
  - destruct (acs_find_ideal_chan_loop_least i Hht) as [t Hmin].
    split; [|split].
    + intros k c Hsel. rewrite Hsel in Hmin. exists t.
      split; [exact Hmin|]. intros Hcmp.
      now apply (first_least_minimum i _ _ k c t).
    + intros Hsel. rewrite Hsel in Hmin. right. exact Hmin.
    + intros i2 Hc Hm. now apply acs_find_ideal_chan_ext.
Qed.

(** ** Selection at 20 MHz outside 2.4 GHz *)

Lemma acs_chan_factor_own (i : hostapd_iface F) (c : hostapd_channel_data F) :
  mode (current_mode i) <> HOSTAPD_MODE_IEEE80211B ->
  mode (current_mode i) <> HOSTAPD_MODE_IEEE80211G ->
  acs_n_chans (conf i) = 1 ->
  acs_usable_chan c = true ->
  acs_chan_factor i (acs_n_chans (conf i)) c
  = Some (survey_interference_factor c).
Proof.
  intros Hb Hg Hn Hu. pose proof (acs_n_chans_one (conf i) Hn) as Hht.
  rewrite Hn. unfold acs_chan_factor. rewrite Hu.
  apply Z.eqb_neq in Hb. apply Z.eqb_neq in Hg. rewrite Hb, Hg.
  rewrite <- !andb_assoc.
  rewrite (andb_assoc (c_true (ieee80211n (conf i)))), Hht.
  rewrite andb_false_r. reflexivity.
Qed.

(** X16.  At 20 MHz in a mode other than B and G the total of a channel
    is its stored interference factor, so for the channel returned: no
    enabled, surveyed channel has a factor that compares [<] to its
    factor and none at a lower index has one that compares [<=] to it;
    when the factors of the enabled, surveyed channels all compare (none
    is a NaN) it is the first channel with the least factor.  This holds
    in any arithmetic that satisfies [LongDoubleOrder]. *)
Theorem acs_find_ideal_chan_lowest_factor
    (i : hostapd_iface F) (k : nat) (c : hostapd_channel_data F) :
  mode (current_mode i) <> HOSTAPD_MODE_IEEE80211B ->
  mode (current_mode i) <> HOSTAPD_MODE_IEEE80211G ->
  acs_n_chans (conf i) = 1 ->
  acs_find_ideal_chan i = Some (k, c) ->
  (forall k' c',
     nth_error (channels (current_mode i)) k' = Some c' ->
     acs_usable_chan c' = true ->
     ld_lt (survey_interference_factor c') (survey_interference_factor c)
     = false /\
     ((k' < k)%nat ->
      ld_le (survey_interference_factor c') (survey_interference_factor c)
      = false)) /\
  ((forall c1 c2,
      In c1 (channels (current_mode i)) -> In c2 (channels (current_mode i)) ->
      acs_usable_chan c1 = true -> acs_usable_chan c2 = true ->
      ld_le (survey_interference_factor c1) (survey_interference_factor c2)
      = true \/
      ld_lt (survey_interference_factor c2) (survey_interference_factor c1)
      = true) ->
   forall k' c',
     nth_error (channels (current_mode i)) k' = Some c' ->
     acs_usable_chan c' = true ->
     ld_le (survey_interference_factor c) (survey_interference_factor c')
     = true /\
     ((k' < k)%nat ->
      ld_lt (survey_interference_factor c) (survey_interference_factor c')
      = true)).
Proof.
  intros Hb Hg Hn Hsel.
  assert (Hht : c_true (ieee80211n (conf i))
                && (secondary_channel (conf i) =? -1) = false).
  { pose proof (acs_n_chans_one (conf i) Hn) as Hone.
    destruct (c_true (ieee80211n (conf i))); [|reflexivity].
    simpl in *. destruct (secondary_channel (conf i) =? -1) eqn:E;
      [|reflexivity].
    apply Z.eqb_eq in E. rewrite E in Hone. discriminate. }
  destruct (acs_find_ideal_chan_loop_least i Hht) as [t Hmin].
  rewrite Hsel in Hmin.
  assert (Hu : acs_usable_chan c = true).
  { destruct Hmin as [_ [Hf _]].
    now destruct (acs_chan_factor_some _ _ _ _ Hf). }
  assert (Ht : t = survey_interference_factor c).
  { destruct Hmin as [_ [Hf _]].
    rewrite (acs_chan_factor_own i c Hb Hg Hn Hu) in Hf. congruence. }
  subst t. split.
  - intros k' c' Hk' Hu'. destruct Hmin as [_ [_ Hleast]].
    apply (Hleast k' c'); [exact Hk'|now apply acs_chan_factor_own].
  - intros Hcmp k' c' Hk' Hu'.
    assert (Hall : totals_comparable i (acs_n_chans (conf i))
                     (channels (current_mode i))).
    { intros c1 c2 t1 t2 H1 H2 Hf1 Hf2.
      assert (Hu1 : acs_usable_chan c1 = true)
        by now destruct (acs_chan_factor_some _ _ _ _ Hf1).
      assert (Hu2 : acs_usable_chan c2 = true)
        by now destruct (acs_chan_factor_some _ _ _ _ Hf2).
      rewrite (acs_chan_factor_own i c1 Hb Hg Hn Hu1) in Hf1.
      rewrite (acs_chan_factor_own i c2 Hb Hg Hn Hu2) in Hf2.
      injection Hf1 as <-. injection Hf2 as <-. now apply Hcmp. }
    exact (first_least_minimum i _ _ k c _ Hmin Hall k' c' _ Hk'
             (acs_chan_factor_own i c' Hb Hg Hn Hu')).
Qed.

End OrderedScores.

(** ** The laws on the real numbers *)

#[export] Instance R_LongDoubleOrder : LongDoubleOrder R.
Proof.
  split; simpl; intros.
  - destruct (Rlt_dec x x); [lra|reflexivity].
  - destruct (Rlt_dec x y); [|discriminate].
    destruct (Rlt_dec y z); [|discriminate].
    destruct (Rlt_dec x z); [reflexivity|lra].
  - destruct (Rle_dec x y); [|discriminate].
    destruct (Rlt_dec y z); [|discriminate].
    destruct (Rlt_dec x z); [reflexivity|lra].
Qed.

#[export] Instance R_LongDoubleArith : LongDoubleArith R.
Proof.
  split; simpl; intros.
  - destruct (Rle_dec 0 y); [|discriminate].
    destruct (Rle_dec x (x + y)); [reflexivity|lra].
  - destruct (Rle_dec 0 x); [|discriminate].
    destruct (Rle_dec 0 y); [|discriminate].
    destruct (Rle_dec 0 (x * y)); [reflexivity|].
    pose proof (Rmult_le_pos x y). lra.
Qed.

(** ** The laws of comparison in binary64

    Proved from the specification of the primitive comparisons
    ([ltb_spec], [leb_spec]): they hold for every binary64 value,
    infinities and NaN included, whatever pow() is. *)

Ltac compare_cases :=
  repeat match goal with
  | Hc : context [Pos.compare_cont Eq ?a ?b] |- _ =>
      change (Pos.compare_cont Eq a b) with (Pos.compare a b) in Hc
  | |- context [Pos.compare_cont Eq ?a ?b] =>
      change (Pos.compare_cont Eq a b) with (Pos.compare a b)
  end;
  repeat match goal with
  | Hc : context [Z.compare ?a ?b] |- _ =>
      destruct (Z.compare_spec a b); simpl in Hc
  | Hc : context [Pos.compare ?a ?b] |- _ =>
      destruct (Pos.compare_spec a b); simpl in Hc
  | |- context [Z.compare ?a ?b] => destruct (Z.compare_spec a b); simpl
  | |- context [Pos.compare ?a ?b] => destruct (Pos.compare_spec a b); simpl
  end;
  try discriminate; try reflexivity; try lia.

Lemma SFltb_irrefl (x : spec_float) : SFltb x x = false.
Proof.
  destruct x as [s|s| |s m e]; unfold SFltb; simpl; try reflexivity;
    destruct s; simpl; compare_cases.
Qed.

Lemma SFltb_trans (x y z : spec_float) :
  SFltb x y = true -> SFltb y z = true -> SFltb x z = true.
Proof.
  destruct x as [sx|sx| |sx mx ex]; destruct y as [sy|sy| |sy my ey];
    destruct z as [sz|sz| |sz mz ez]; unfold SFltb; simpl;
    try discriminate; try reflexivity;
    repeat match goal with s : bool |- _ => destruct s end; simpl;
    try discriminate; try reflexivity; intros H1 H2; compare_cases.
Qed.

Lemma SFleb_ltb_trans (x y z : spec_float) :
  SFleb x y = true -> SFltb y z = true -> SFltb x z = true.
Proof.
  destruct x as [sx|sx| |sx mx ex]; destruct y as [sy|sy| |sy my ey];
    destruct z as [sz|sz| |sz mz ez]; unfold SFltb, SFleb; simpl;
    try discriminate; try reflexivity;
    repeat match goal with s : bool |- _ => destruct s end; simpl;
    try discriminate; try reflexivity; intros H1 H2; compare_cases.
Qed.

Lemma binary64_LongDoubleOrder (pow : float -> float -> float) :
  LongDoubleOrder float (LD := Binary64.binary64_with pow)
    (CMP := Binary64.binary64_LongDoubleCmp).
Proof.
  split; simpl; intros.
  - rewrite ltb_spec. apply SFltb_irrefl.
  - rewrite ltb_spec in *. now apply SFltb_trans with (Prim2SF y).
  - rewrite ltb_spec, ?leb_spec in *.
    now apply SFleb_ltb_trans with (Prim2SF y).
Qed.

(** ** The laws of sum and product in binary64

    Proved from the specification of the primitive operations
    ([add_spec], [mul_spec]) and the definition of rounding to nearest
    in the standard library's [SpecFloat]: the mantissa is shifted to the
    exponent of the format, rounded, and shifted once more if rounding
    carried. *)

Lemma digits2_pos_bounds (m : positive) :
  2 ^ (Zpos (digits2_pos m) - 1) <= Zpos m < 2 ^ Zpos (digits2_pos m).
Proof.
  induction m as [m IH|m IH|]; cbn [digits2_pos].
  - rewrite Pos2Z.inj_succ. change (Zpos m~1) with (2 * Zpos m + 1).
    replace (Z.succ (Zpos (digits2_pos m)) - 1)
      with (Z.succ (Zpos (digits2_pos m) - 1)) by lia.
    rewrite !Z.pow_succ_r by lia.
    set (a := 2 ^ (Zpos (digits2_pos m) - 1)) in *.
    set (b := 2 ^ Zpos (digits2_pos m)) in *. lia.
  - rewrite Pos2Z.inj_succ. change (Zpos m~0) with (2 * Zpos m).
    replace (Z.succ (Zpos (digits2_pos m)) - 1)
      with (Z.succ (Zpos (digits2_pos m) - 1)) by lia.
    rewrite !Z.pow_succ_r by lia.
    set (a := 2 ^ (Zpos (digits2_pos m) - 1)) in *.
    set (b := 2 ^ Zpos (digits2_pos m)) in *. lia.
  - simpl. lia.
Qed.

Lemma digits2_pos_le (a b : positive) :
  Zpos a <= Zpos b -> Zpos (digits2_pos a) <= Zpos (digits2_pos b).
Proof.
  intros Hab.
  destruct (Z_le_gt_dec (Zpos (digits2_pos a)) (Zpos (digits2_pos b)))
    as [Hle|Hgt]; [exact Hle|exfalso].
  pose proof (digits2_pos_bounds a) as [Ha _].
  pose proof (digits2_pos_bounds b) as [_ Hb].
  assert (2 ^ Zpos (digits2_pos b) <= 2 ^ (Zpos (digits2_pos a) - 1))
    by (apply Z.pow_le_mono_r; lia).
  lia.
Qed.

(** The number of digits of [m * 2 ^ k]. *)
Lemma digits2_pos_shift (m p : positive) (k : Z) :
  0 <= k -> Zpos p = Zpos m * 2 ^ k ->
  Zpos (digits2_pos p) = Zpos (digits2_pos m) + k.
Proof.
  intros Hk Hp.
  pose proof (digits2_pos_bounds m) as [Hm1 Hm2].
  pose proof (digits2_pos_bounds p) as [Hp1 Hp2].
  assert (Hk0 : 0 < 2 ^ k) by (apply Z.pow_pos_nonneg; lia).
  destruct (Z.lt_trichotomy (Zpos (digits2_pos p)) (Zpos (digits2_pos m) + k))
    as [Hlt|[Heq|Hgt]]; [exfalso|exact Heq|exfalso].
  - assert (2 ^ Zpos (digits2_pos p) <= 2 ^ (Zpos (digits2_pos m) - 1 + k))
      by (apply Z.pow_le_mono_r; lia).
    rewrite Z.pow_add_r in H by lia. nia.
  - assert (2 ^ (Zpos (digits2_pos m) + k) <= 2 ^ (Zpos (digits2_pos p) - 1))
      by (apply Z.pow_le_mono_r; lia).
    rewrite Z.pow_add_r in H by lia. nia.
Qed.

Lemma shr_1_m (mrs : shr_record) :
  0 <= shr_m mrs -> shr_m (shr_1 mrs) = shr_m mrs / 2.
Proof.
  destruct mrs as [m r s]. simpl. intros Hm.
  destruct m as [|[p|p|]|p]; simpl; try reflexivity; try lia.
  - apply Z.div_unique with 1; lia.
  - apply Z.div_unique with 0; lia.
Qed.

Lemma iter_shr_1_m (p : positive) (mrs : shr_record) :
  0 <= shr_m mrs ->
  shr_m (iter_pos shr_1 p mrs) = shr_m mrs / 2 ^ Zpos p.
Proof.
  revert mrs. induction p as [p IH|p IH|]; intros mrs Hm; cbn [iter_pos].
  - assert (H1 : 0 <= shr_m (shr_1 mrs))
      by (rewrite shr_1_m by exact Hm; apply Z.div_pos; lia).
    assert (H2 : 0 <= shr_m (iter_pos shr_1 p (shr_1 mrs)))
      by (rewrite IH by exact H1; apply Z.div_pos; [exact H1|];
          apply Z.pow_pos_nonneg; lia).
    rewrite IH by exact H2. rewrite IH by exact H1. rewrite shr_1_m by exact Hm.
    assert (Hp : 0 < 2 ^ Zpos p) by (apply Z.pow_pos_nonneg; lia).
    rewrite !Zdiv.Zdiv_Zdiv by lia.
    f_equal. change (Zpos p~1) with (2 * Zpos p + 1).
    replace (2 * Zpos p + 1) with (1 + Zpos p + Zpos p) by lia.
    rewrite !Z.pow_add_r by lia. rewrite Z.pow_1_r. lia.
  - assert (H2 : 0 <= shr_m (iter_pos shr_1 p mrs))
      by (rewrite IH by exact Hm; apply Z.div_pos; [exact Hm|];
          apply Z.pow_pos_nonneg; lia).
    rewrite IH by exact H2. rewrite IH by exact Hm.
    assert (Hp : 0 < 2 ^ Zpos p) by (apply Z.pow_pos_nonneg; lia).
    rewrite !Zdiv.Zdiv_Zdiv by lia.
    f_equal. change (Zpos p~0) with (2 * Zpos p).
    replace (2 * Zpos p) with (Zpos p + Zpos p) by lia.
    rewrite !Z.pow_add_r by lia. lia.
  - rewrite shr_1_m by exact Hm. rewrite Z.pow_1_r. reflexivity.
Qed.

(** A shift to the right by [n >= 0] digits. *)
Lemma shr_spec (mrs : shr_record) (e n : Z) :
  0 <= shr_m mrs -> 0 <= n ->
  shr_m (fst (shr mrs e n)) = shr_m mrs / 2 ^ n /\ snd (shr mrs e n) = e + n.
Proof.
  intros Hm Hn. unfold shr. destruct n as [|p|p]; simpl.
  - rewrite Z.div_1_r. split; [reflexivity|lia].
  - split; [now apply iter_shr_1_m|reflexivity].
  - lia.
Qed.

Lemma shr_nonneg (mrs : shr_record) (e n : Z) :
  0 <= shr_m mrs -> 0 <= shr_m (fst (shr mrs e n)).
Proof.
  intros Hm. unfold shr. destruct n as [|p|p]; simpl; try exact Hm.
  rewrite iter_shr_1_m by exact Hm. apply Z.div_pos; [exact Hm|].
  apply Z.pow_pos_nonneg; lia.
Qed.

Lemma shr_m_of_loc (m : Z) (l : location) : shr_m (shr_record_of_loc m l) = m.
Proof. destruct l as [|[| |]]; reflexivity. Qed.

Lemma round_nearest_even_bounds (m : Z) (l : location) :
  m <= round_nearest_even m l <= m + 1.
Proof.
  unfold round_nearest_even. destruct l as [|[| |]]; try lia.
  destruct (Z.even m); lia.
Qed.

Lemma fexp64_eq (e : Z) : fexp64 e = Z.max (e - 53) (-1074).
Proof. reflexivity. Qed.

(** The second shift of binary_round_aux, after rounding. *)
Lemma shr_fexp_rounded (m c : Z) :
  1 <= m -> -1074 <= c ->
  1 <= shr_m (fst (shr_fexp prec emax m c loc_Exact)) /\
  c <= snd (shr_fexp prec emax m c loc_Exact) /\
  (snd (shr_fexp prec emax m c loc_Exact) = c ->
   shr_m (fst (shr_fexp prec emax m c loc_Exact)) = m).
Proof.
  intros Hm Hc. destruct m as [|p|p]; try lia.
  unfold shr_fexp. cbn [Zdigits2 shr_record_of_loc].
  set (n := fexp64 (Zpos (digits2_pos p) + c) - c).
  destruct (Z_le_gt_dec n 0) as [Hn|Hn].
  - unfold shr. destruct n as [|q|q]; try lia; cbn [fst snd shr_m];
      repeat split; lia.
  - destruct (shr_spec {| shr_m := Zpos p; shr_r := false; shr_s := false |}
                c n) as [Hs He]; [simpl; lia|lia|].
    rewrite Hs, He. cbn [shr_m].
    assert (Hd : n = Zpos (digits2_pos p) - 53)
      by (unfold n in *; rewrite fexp64_eq in *; lia).
    repeat split; try lia.
    rewrite Hd. pose proof (digits2_pos_bounds p) as [Hb _].
    apply Z.div_le_lower_bound; [apply Z.pow_pos_nonneg; lia|].
    rewrite Z.mul_1_r.
    transitivity (2 ^ (Zpos (digits2_pos p) - 1)); [|exact Hb].
    apply Z.pow_le_mono_r; lia.
Qed.

(** The result of binary_round_aux with a mantissa of at least 1 at an
    exponent not below [ex] is not below [mx * 2 ^ ex]. *)
Lemma SFleb_finite_result (mx : positive) (ex m e : Z) :
  1 <= m -> ex <= e -> (e = ex -> Zpos mx <= m) ->
  SFleb (S754_finite false mx ex)
    match m with
    | Z0 => S754_zero false
    | Zpos p =>
        if Z.leb e (Z.sub emax prec) then S754_finite false p e
        else S754_infinity false
    | Zneg _ => S754_nan
    end = true.
Proof.
  intros Hm He Hx. destruct m as [|p|p]; try lia.
  destruct (Z.leb e (Z.sub emax prec)); [|reflexivity].
  unfold SFleb, SFcompare.
  destruct (Z.compare_spec ex e) as [Heq|Hlt|Hgt]; [|reflexivity|lia].
  change (Pos.compare_cont Eq mx p) with (Pos.compare mx p).
  symmetry in Heq. specialize (Hx Heq).
  destruct (Pos.compare_spec mx p) as [H|H|H]; try reflexivity. lia.
Qed.

Lemma binary_round_aux_lower (mz : positive) (ez : Z) (l : location)
    (mx : positive) (ex : Z) :
  let c := fexp64 (Zpos (digits2_pos mz) + ez) in
  ez <= c -> ex <= c -> -1074 <= ex ->
  (c = ex -> Zpos mx <= Zpos mz / 2 ^ (c - ez)) ->
  SFleb (S754_finite false mx ex)
        (binary_round_aux prec emax false (Zpos mz) ez l) = true.
Proof.
  intros c H1 H2 H4 H3.
  unfold binary_round_aux. unfold shr_fexp at 1. cbn [Zdigits2]. fold c.
  destruct (shr_spec (shr_record_of_loc (Zpos mz) l) ez (c - ez))
    as [Hm' He']; [rewrite shr_m_of_loc; lia|lia|].
  destruct (shr (shr_record_of_loc (Zpos mz) l) ez (c - ez)) as [mrs' e'].
  cbn [fst snd] in Hm', He'. rewrite shr_m_of_loc in Hm'.
  assert (He : e' = c) by lia. clear He'. subst e'.
  pose proof (round_nearest_even_bounds (shr_m mrs') (loc_of_shr_record mrs'))
    as Hr.
  set (m2 := round_nearest_even (shr_m mrs') (loc_of_shr_record mrs')) in *.
  assert (Hpos : 1 <= shr_m mrs').
  { rewrite Hm'. destruct (Z.eq_dec c ex) as [Heq|Hne].
    - specialize (H3 Heq). lia.
    - assert (Hc : c - ez = Zpos (digits2_pos mz) - 53)
        by (unfold c in *; rewrite fexp64_eq in *; lia).
      rewrite Hc. pose proof (digits2_pos_bounds mz) as [Hb _].
      apply Z.div_le_lower_bound; [apply Z.pow_pos_nonneg; lia|].
      rewrite Z.mul_1_r.
      transitivity (2 ^ (Zpos (digits2_pos mz) - 1)); [|exact Hb].
      apply Z.pow_le_mono_r; lia. }
  destruct (shr_fexp_rounded m2 c) as [Hf1 [Hf2 Hf3]]; [lia|lia|].
  destruct (shr_fexp prec emax m2 c loc_Exact) as [mrs2 e2].
  cbn [fst snd] in Hf1, Hf2, Hf3. cbv beta iota.
  apply SFleb_finite_result; [exact Hf1|lia|].
  intros Heq. assert (Hce : c = ex) by lia.
  rewrite Hf3 by lia. specialize (H3 Hce). lia.
Qed.

(** Rounding a value that is not below a representable [mx * 2 ^ ex]
    gives a result that is not below it. *)
Lemma binary_round_lower (M : positive) (ez : Z) (mx : positive) (ex : Z) :
  bounded prec emax mx ex = true ->
  ez <= ex -> Zpos mx * 2 ^ (ex - ez) <= Zpos M ->
  SFleb (S754_finite false mx ex) (binary_round prec emax false M ez) = true.
Proof.
  intros Hb Hez HM.
  unfold bounded, canonical_mantissa in Hb.
  apply andb_true_iff in Hb. destruct Hb as [Hcan _].
  apply Z.eqb_eq in Hcan. rewrite fexp64_eq in Hcan.
  assert (Hk : 0 < 2 ^ (ex - ez)) by (apply Z.pow_pos_nonneg; lia).
  assert (Hd : Zpos (digits2_pos mx) + (ex - ez) <= Zpos (digits2_pos M)).
  { destruct (Zpos mx * 2 ^ (ex - ez)) as [|p|p] eqn:Hp; try lia.
    rewrite <- (digits2_pos_shift mx p (ex - ez)) by lia.
    now apply digits2_pos_le. }
  assert (Hc : ex <= fexp64 (Zpos (digits2_pos M) + ez))
    by (rewrite fexp64_eq; lia).
  unfold binary_round, shl_align.
  destruct (fexp64 (Zpos (digits2_pos M) + ez) - ez) as [|q|q] eqn:Hq; try lia.
  - apply binary_round_aux_lower; try lia.
    intros Heq. apply Z.div_le_lower_bound; [apply Z.pow_pos_nonneg; lia|].
    replace (fexp64 (Zpos (digits2_pos M) + ez) - ez) with (ex - ez) by lia.
    lia.
  - apply binary_round_aux_lower; try lia.
    intros Heq. apply Z.div_le_lower_bound; [apply Z.pow_pos_nonneg; lia|].
    replace (fexp64 (Zpos (digits2_pos M) + ez) - ez) with (ex - ez) by lia.
    lia.
Qed.

Lemma iter_xO (m d : positive) : Zpos (Pos.iter xO m d) = Zpos m * 2 ^ Zpos d.
Proof.
  induction d as [|d IH] using Pos.peano_ind.
  - simpl. lia.
  - rewrite Pos.iter_succ. change (Zpos (Pos.iter xO m d)~0)
      with (2 * Zpos (Pos.iter xO m d)).
    rewrite IH, Pos2Z.inj_succ, Z.pow_succ_r by lia. lia.
Qed.

Lemma shl_align_fst (mx : positive) (ex ez : Z) :
  ez <= ex -> Zpos (fst (shl_align mx ex ez)) = Zpos mx * 2 ^ (ex - ez).
Proof.
  intros He. unfold shl_align.
  destruct (ez - ex) as [|d|d] eqn:Hd; try lia; cbn [fst].
  - replace (ex - ez) with 0 by lia. simpl. lia.
  - rewrite iter_xO. f_equal. f_equal. lia.
Qed.

Lemma SFleb_zero (x : spec_float) : SFleb (S754_zero false) x = SFnonneg x.
Proof. destruct x as [s|s| |s m e]; try reflexivity; destruct s; reflexivity. Qed.

Lemma SFleb_refl_finite (s : bool) (m : positive) (e : Z) :
  SFleb (S754_finite s m e) (S754_finite s m e) = true.
Proof.
  unfold SFleb, SFcompare. rewrite Z.compare_refl.
  change (Pos.compare_cont Eq m m) with (Pos.compare m m).
  rewrite Pos.compare_refl. destruct s; reflexivity.
Qed.

Lemma SFadd_lower (x y : spec_float) :
  valid_binary x = true -> SFfinite x = true ->
  SFnonneg x = true -> SFnonneg y = true ->
  SFleb x (SF64add x y) = true.
Proof.
  intros Hv Hf Hx Hy.
  destruct x as [sx|sx| |sx mx ex]; try discriminate;
    destruct y as [sy|sy| |sy my ey]; try discriminate;
    simpl in Hx, Hy;
    try (apply negb_true_iff in Hx; subst sx);
    try (apply negb_true_iff in Hy; subst sy);
    try (destruct sx); try (destruct sy); try reflexivity;
    try apply SFleb_refl_finite.
  unfold SF64add, SFadd. cbn [cond_Zopp].
  assert (Hmin : Z.min ex ey <= ex) by lia.
  set (ez := Z.min ex ey) in *.
  change (Zpos (fst (shl_align mx ex ez)) + Zpos (fst (shl_align my ey ez)))
    with (Zpos (fst (shl_align mx ex ez) + fst (shl_align my ey ez))).
  cbn [binary_normalize].
  apply binary_round_lower; [exact Hv|exact Hmin|].
  rewrite Pos2Z.inj_add, shl_align_fst by exact Hmin. lia.
Qed.

Lemma binary_round_aux_nonneg (m : positive) (e : Z) (l : location) :
  SFnonneg (binary_round_aux prec emax false (Zpos m) e l) = true.
Proof.
  unfold binary_round_aux, shr_fexp.
  pose proof (shr_nonneg (shr_record_of_loc (Zpos m) l) e
                (fexp64 (Zdigits2 (Zpos m) + e) - e)) as H1.
  destruct (shr (shr_record_of_loc (Zpos m) l) e
              (fexp64 (Zdigits2 (Zpos m) + e) - e)) as [mrs1 e1].
  cbn [fst] in H1. rewrite shr_m_of_loc in H1. specialize (H1 ltac:(lia)).
  pose proof (round_nearest_even_bounds (shr_m mrs1) (loc_of_shr_record mrs1))
    as Hr.
  set (m2 := round_nearest_even (shr_m mrs1) (loc_of_shr_record mrs1)) in *.
  pose proof (shr_nonneg (shr_record_of_loc m2 loc_Exact) e1
                (fexp64 (Zdigits2 m2 + e1) - e1)) as H2.
  destruct (shr (shr_record_of_loc m2 loc_Exact) e1
              (fexp64 (Zdigits2 m2 + e1) - e1)) as [mrs2 e2].
  cbn [fst shr_record_of_loc shr_m] in H2. specialize (H2 ltac:(lia)).
  destruct (shr_m mrs2) as [|p|p]; try lia; [reflexivity|].
  destruct (Z.leb e2 (Z.sub emax prec)); reflexivity.
Qed.

Lemma SFmul_nonneg (x y : spec_float) :
  SFfinite x = true -> SFfinite y = true ->
  SFnonneg x = true -> SFnonneg y = true ->
  SFnonneg (SF64mul x y) = true.
Proof.
  intros Hfx Hfy Hx Hy.
  destruct x as [sx|sx| |sx mx ex]; try discriminate;
    destruct y as [sy|sy| |sy my ey]; try discriminate;
    try reflexivity.
  simpl in Hx, Hy. apply negb_true_iff in Hx. apply negb_true_iff in Hy.
  subst sx sy. unfold SF64mul, SFmul. cbn [xorb].
  apply binary_round_aux_nonneg.
Qed.

Lemma is_finite_spec (x : float) : is_finite x = SFfinite (Prim2SF x).
Proof.
  unfold is_finite, is_nan, is_infinity.
  rewrite !eqb_spec, abs_spec.
  change (Prim2SF infinity) with (S754_infinity false).
  destruct (Prim2SF x) as [s|s| |s m e]; try reflexivity.
  - destruct s; reflexivity.
  - unfold SFeqb, SFcompare, SFabs.
    rewrite Z.compare_refl.
    change (Pos.compare_cont Eq m m) with (Pos.compare m m).
    rewrite Pos.compare_refl. destruct s; reflexivity.
Qed.

Lemma binary64_of_int_zero :
  Prim2SF (Binary64.binary64_of_int 0) = S754_zero false.
Proof. reflexivity. Qed.

Lemma binary64_LongDoubleArith (pow : float -> float -> float) :
  LongDoubleArith float (LD := Binary64.binary64_with pow)
    (CMP := Binary64.binary64_LongDoubleCmp).
Proof.
  split; simpl; intros x y.
  - rewrite !leb_spec, is_finite_spec, add_spec, binary64_of_int_zero,
      !SFleb_zero.
    intros Hf Hx Hy. apply SFadd_lower; try assumption.
    apply Prim2SF_valid.
  - rewrite !leb_spec, !is_finite_spec, mul_spec, binary64_of_int_zero,
      !SFleb_zero.
    apply SFmul_nonneg.
Qed.

(** A NaN in binary64: it absorbs sums and products and every comparison
    with it is false. *)

Lemma binary64_add_nan (x : float) : PrimFloat.add x PrimFloat.nan = PrimFloat.nan.
Proof.
  apply Prim2SF_inj. rewrite add_spec.
  destruct (Prim2SF x); reflexivity.
Qed.

Lemma binary64_mul_nan (x : float) : PrimFloat.mul PrimFloat.nan x = PrimFloat.nan.
Proof.
  apply Prim2SF_inj. rewrite mul_spec.
  destruct (Prim2SF x); reflexivity.
Qed.

Lemma binary64_ltb_nan (x : float) : PrimFloat.ltb x PrimFloat.nan = false.
Proof. rewrite ltb_spec. destruct (Prim2SF x); reflexivity. Qed.

Lemma binary64_leb_nan (x : float) : PrimFloat.leb PrimFloat.nan x = false.
Proof. rewrite leb_spec. destruct (Prim2SF x); reflexivity. Qed.

(** Whatever pow() returns, the saturated record scores a NaN and
    acs_find_ideal_chan returns its channel, the first of the table,
    with a total that does not compare [<=] to the other channel's. *)
Lemma binary64_nan_channel_kept (pow : float -> float -> float) :
  exists c0 c1,
    channels (current_mode (Binary64.scored_with pow)) = [c0; c1] /\
    survey_interference_factor c0 = PrimFloat.nan /\
    acs_find_ideal_chan (H := Examples.hostapd_headers)
      (LD := Binary64.binary64_with pow) (Binary64.scored_with pow)
    = Some (0%nat, c0) /\
    PrimFloat.leb (survey_interference_factor c0)
                  (survey_interference_factor c1) = false.
Proof.
  unfold Binary64.scored_with, acs_survey_all_chans_intereference_factor.
  cbn [Binary64.surveyed_iface Binary64.iface_of current_mode channels map
       set_channels].
  set (c0 := if acs_usable_chan _ then _ else _).
  set (c1 := if acs_usable_chan _ then _ else _).
  assert (H0 : c0 = Binary64.saturated_chan).
  { subst c0. vm_compute.
    rewrite binary64_mul_nan, binary64_add_nan. vm_compute. reflexivity. }
  exists c0, c1. split; [reflexivity|]. rewrite H0.
  split; [reflexivity|]. split.
  - unfold acs_find_ideal_chan. cbn -[c1].
    assert (Hu : acs_usable_chan (H := Examples.hostapd_headers) c1 = true)
      by reflexivity.
    unfold acs_chan_factor. cbn -[c1]. rewrite Hu. cbn -[c1].
    rewrite binary64_ltb_nan. reflexivity.
  - apply binary64_leb_nan.
Qed.

(** * Further properties of acs.c *)

Section AcsFurther.

Context {H : headers}.
Context {F : Type} {LD : LongDouble F}.
Context {X : collaborators F}.

(** ** acs_clean_chan_surveys and acs_cleanup *)

Lemma acs_cleanup_chan_eq (c : hostapd_channel_data F) :
  acs_cleanup_chan c =
  {| chan := chan c; freq := freq c;
     flag := Z.lor (flag c) HOSTAPD_CHAN_SURVEY_LIST_INITIALIZED;
     survey_list := []; min_nf := 0;
     survey_interference_factor := survey_interference_factor c |}.
Proof.
  unfold acs_cleanup_chan, acs_clean_chan_surveys.
  destruct (has_flag (flag c) HOSTAPD_CHAN_SURVEY_LIST_INITIALIZED);
    destruct (survey_list c); reflexivity.
Qed.

Lemma acs_cleanup_chan_twice (c : hostapd_channel_data F) :
  acs_cleanup_chan (acs_cleanup_chan c) = acs_cleanup_chan c.
Proof.
  rewrite !acs_cleanup_chan_eq. simpl.
  rewrite <- Z.lor_assoc, Z.lor_diag. reflexivity.
Qed.

(** X1.  acs_cleanup run twice is acs_cleanup run once.  It keeps the
    configuration, the mode, [lowest_nf], the callback and the number of
    channels, and of every channel the number, the frequency and the
    interference factor computed earlier; it sets the
    survey-list-initialized bits in every flag and [chans_surveyed]
    to 0. *)
Theorem acs_cleanup_idempotent_and_frame (i : hostapd_iface F) :
  acs_cleanup (acs_cleanup i) = acs_cleanup i /\
  conf (acs_cleanup i) = conf i /\
  mode (current_mode (acs_cleanup i)) = mode (current_mode i) /\
  lowest_nf (acs_cleanup i) = lowest_nf i /\
  scan_cb (acs_cleanup i) = scan_cb i /\
  chans_surveyed (acs_cleanup i) = 0 /\
  map chan (channels (current_mode (acs_cleanup i)))
    = map chan (channels (current_mode i)) /\
  map freq (channels (current_mode (acs_cleanup i)))
    = map freq (channels (current_mode i)) /\
  map survey_interference_factor (channels (current_mode (acs_cleanup i)))
    = map survey_interference_factor (channels (current_mode i)) /\
  (forall c, In c (channels (current_mode (acs_cleanup i))) ->
     Z.land (flag c) HOSTAPD_CHAN_SURVEY_LIST_INITIALIZED
     = HOSTAPD_CHAN_SURVEY_LIST_INITIALIZED).
Proof.
  split.
  { unfold acs_cleanup, set_channels, set_chans_surveyed. simpl.
    rewrite map_map. do 2 f_equal. apply map_ext.
    intros c. apply acs_cleanup_chan_twice. }
  repeat (split; [reflexivity|]).
  unfold acs_cleanup. simpl. rewrite !map_map.
  split; [apply map_ext; intros c; now rewrite acs_cleanup_chan_eq|].
  split; [apply map_ext; intros c; now rewrite acs_cleanup_chan_eq|].
  split; [apply map_ext; intros c; now rewrite acs_cleanup_chan_eq|].
  intros c Hc. apply in_map_iff in Hc. destruct Hc as [c0 [<- _]].
  rewrite acs_cleanup_chan_eq. simpl.
  apply Z.bits_inj'. intros n Hn. rewrite Z.land_spec, Z.lor_spec.
  destruct (Z.testbit (flag c0) n);
    destruct (Z.testbit HOSTAPD_CHAN_SURVEY_LIST_INITIALIZED n); reflexivity.
Qed.

(** X2.  When the survey-list-initialized bits and the disabled bits do
    not overlap, acs_cleanup leaves every channel as disabled or enabled
    as it was, so the frequencies acs_request_scan collects after it are
    those of the channels that were enabled before. *)
Theorem acs_cleanup_keeps_disabled (i : hostapd_iface F) :
  Z.land HOSTAPD_CHAN_SURVEY_LIST_INITIALIZED HOSTAPD_CHAN_DISABLED = 0 ->
  map (fun c => has_flag (flag c) HOSTAPD_CHAN_DISABLED)
      (channels (current_mode (acs_cleanup i)))
  = map (fun c => has_flag (flag c) HOSTAPD_CHAN_DISABLED)
        (channels (current_mode i)) /\
  freqs (acs_scan_params (acs_cleanup i)) = freqs (acs_scan_params i).
Proof.
  intros Hdisj.
  assert (Hflag : forall c : hostapd_channel_data F,
             has_flag (flag (acs_cleanup_chan c)) HOSTAPD_CHAN_DISABLED
             = has_flag (flag c) HOSTAPD_CHAN_DISABLED).
  { intros c. rewrite acs_cleanup_chan_eq. simpl. unfold has_flag.
    rewrite Z.land_lor_distr_l, Hdisj, Z.lor_0_r. reflexivity. }
  split.
  - unfold acs_cleanup. simpl. rewrite map_map. apply map_ext. exact Hflag.
  - unfold acs_scan_params, acs_cleanup. simpl. f_equal.
    induction (channels (current_mode i)) as [|c tl IH];
      cbn [map filter]; [reflexivity|].
    rewrite Hflag.
    destruct (has_flag (flag c) HOSTAPD_CHAN_DISABLED); cbn [negb map];
      [exact IH|].
    rewrite IH, acs_cleanup_chan_eq. reflexivity.
Qed.

(** ** What acs_find_ideal_chan can return *)

Lemma acs_chan_factor_unusable (i : hostapd_iface F) (n : Z)
    (c : hostapd_channel_data F) :
  acs_usable_chan c = false -> acs_chan_factor i n c = None.
Proof. intros Hu. unfold acs_chan_factor. rewrite Hu. reflexivity. Qed.

Lemma ideal_chan_loop_all_skipped (i : hostapd_iface F) (n : Z)
    (l : list (hostapd_channel_data F)) :
  (forall c, In c l -> acs_chan_factor i n c = None) ->
  forall idx ic f, ideal_chan_loop i n l idx ic f = (ic, f).
Proof.
  induction l as [|a tl IH]; intros Hall idx ic f; simpl; [reflexivity|].
  rewrite (Hall a) by now left.
  apply IH. intros c Hc. apply Hall. now right.
Qed.

Lemma acs_find_ideal_chan_all_skipped (i : hostapd_iface F) :
  (forall c, In c (channels (current_mode i)) ->
     acs_chan_factor i (acs_n_chans (conf i)) c = None) ->
  acs_find_ideal_chan i = None.
Proof.
  intros Hall. unfold acs_find_ideal_chan.
  destruct (_ && _); [reflexivity|].
  now rewrite ideal_chan_loop_all_skipped.
Qed.

(** X3.  acs_find_ideal_chan only returns an element of the table that
    is not disabled and has at least one survey; when every channel is
    disabled or has no survey it returns NULL, and so it does on any
    interface that acs_cleanup has just reset. *)
Theorem acs_find_ideal_chan_usable_only (i : hostapd_iface F) :
  (forall k c, acs_find_ideal_chan i = Some (k, c) ->
     nth_error (channels (current_mode i)) k = Some c /\
     survey_list c <> [] /\
     has_flag (flag c) HOSTAPD_CHAN_DISABLED = false) /\
  ((forall c, In c (channels (current_mode i)) ->
      survey_list c = [] \/ has_flag (flag c) HOSTAPD_CHAN_DISABLED = true) ->
   acs_find_ideal_chan i = None) /\
  acs_find_ideal_chan (acs_cleanup i) = None.
Proof.
  assert (Hnone : forall i0 : hostapd_iface F,
            (forall c, In c (channels (current_mode i0)) ->
               survey_list c = [] \/
               has_flag (flag c) HOSTAPD_CHAN_DISABLED = true) ->
            acs_find_ideal_chan i0 = None).
  { intros i0 Hall. apply acs_find_ideal_chan_all_skipped.
    intros c Hc. apply acs_chan_factor_unusable.
    unfold acs_usable_chan.
    destruct (Hall c Hc) as [-> | Hd]; [reflexivity|].
    rewrite Hd. destruct (survey_list c); reflexivity. }
  split; [|split].
  - intros k c Hsel. apply acs_find_ideal_chan_some in Hsel.
    destruct Hsel as [Hn [t Ht]]. split; [exact Hn|].
    apply acs_chan_factor_some in Ht. destruct Ht as [Hu _].
    now apply acs_usable_chan_true.
  - apply Hnone.
  - apply Hnone. intros c Hc. left.
    pose proof (acs_cleanup_clean i) as Hclean.
    unfold survey_store_clean in Hclean.
    rewrite Forall_forall in Hclean. now destruct (Hclean c Hc).
Qed.

(** X4.  In mode A with [ieee80211n] set and a secondary channel
    configured, the channel returned has one of the thirteen numbers of
    [allowed] (HT40 primary channels of 11n Annex J); a channel with
    another number is never returned. *)
Theorem acs_find_ideal_chan_ht40_primary
    (i : hostapd_iface F) (k : nat) (c : hostapd_channel_data F) :
  mode (current_mode i) = HOSTAPD_MODE_IEEE80211A ->
  ieee80211n (conf i) <> 0 ->
  secondary_channel (conf i) <> 0 ->
  acs_find_ideal_chan i = Some (k, c) ->
  In (chan c) allowed.
Proof.
  intros Hm Hn Hs Hsel.
  apply acs_find_ideal_chan_some in Hsel. destruct Hsel as [_ [t Ht]].
  unfold acs_chan_factor in Ht.
  destruct (negb (acs_usable_chan c)); [discriminate|].
  assert (Hcond : (mode (current_mode i) =? HOSTAPD_MODE_IEEE80211A)
                  && c_true (ieee80211n (conf i))
                  && c_true (secondary_channel (conf i)) = true).
  { rewrite Hm, Z.eqb_refl. unfold c_true.
    apply Z.eqb_neq in Hn. apply Z.eqb_neq in Hs. now rewrite Hn, Hs. }
  rewrite Hcond in Ht. simpl in Ht.
  destruct (acs_usable_ht40_chan c) eqn:Hht; [|discriminate].
  unfold acs_usable_ht40_chan in Hht. apply existsb_exists in Hht.
  destruct Hht as [a [Hin Ha]]. apply Z.eqb_eq in Ha. now rewrite Ha.
Qed.

(** X5.  Outside modes B and G the total of a channel is its own factor
    plus, in this order, the factors of the channels found 20 MHz above
    it (40 MHz operation), and 40 and 60 MHz above it as well (80 MHz
    operation); with [n_chans == 1] it is the channel's own factor. *)
Theorem acs_chan_factor_bonded
    (i : hostapd_iface F) (n : Z) (c : hostapd_channel_data F) (t : F) :
  mode (current_mode i) <> HOSTAPD_MODE_IEEE80211B ->
  mode (current_mode i) <> HOSTAPD_MODE_IEEE80211G ->
  acs_chan_factor i n c = Some t ->
  (n = 1 -> t = survey_interference_factor c) /\
  (n = 2 ->
   exists k1 a1, acs_find_chan i (freq c + 20) = Some (k1, a1) /\
     t = ld_add (survey_interference_factor c)
                (survey_interference_factor a1)) /\
  (n = 4 ->
   exists k1 a1 k2 a2 k3 a3,
     acs_find_chan i (freq c + 20) = Some (k1, a1) /\
     acs_find_chan i (freq c + 40) = Some (k2, a2) /\
     acs_find_chan i (freq c + 60) = Some (k3, a3) /\
     t = ld_add (ld_add (ld_add (survey_interference_factor c)
                           (survey_interference_factor a1))
                   (survey_interference_factor a2))
           (survey_interference_factor a3)).
Proof.
  intros Hb Hg. unfold acs_chan_factor.
  apply Z.eqb_neq in Hb. apply Z.eqb_neq in Hg. rewrite Hb, Hg.
  destruct (negb (acs_usable_chan c)); [discriminate|].
  destruct (_ && negb (acs_usable_ht40_chan c)); [discriminate|].
  intros Hf. split; [|split]; intros ->; simpl in Hf.
  - now injection Hf as <-.
  - destruct (acs_find_chan i (freq c + 20)) as [[k1 a1]|];
      simpl in Hf; [|discriminate].
    injection Hf as <-. now exists k1, a1.
  - destruct (acs_find_chan i (freq c + 20)) as [[k1 a1]|];
      simpl in Hf; [|discriminate].
    destruct (acs_find_chan i (freq c + 40)) as [[k2 a2]|];
      simpl in Hf; [|discriminate].
    destruct (acs_find_chan i (freq c + 60)) as [[k3 a3]|];
      simpl in Hf; [|discriminate].
    injection Hf as <-. now exists k1, a1, k2, a2, k3, a3.
Qed.

(** ** acs_survey_chan_interference_factor over the table *)

Lemma acs_survey_chan_interference_factor_frame
    (i : hostapd_iface F) (c : hostapd_channel_data F) :
  let c' := acs_survey_chan_interference_factor i c in
  chan c' = chan c /\ freq c' = freq c /\ flag c' = flag c /\
  survey_list c' = survey_list c /\ min_nf c' = min_nf c.
Proof.
  unfold acs_survey_chan_interference_factor.
  destruct (survey_list c) eqn:E; [now rewrite E|].
  destruct (has_flag (flag c) HOSTAPD_CHAN_DISABLED); simpl;
    rewrite ?E; repeat split; reflexivity.
Qed.

Lemma acs_survey_chan_interference_factor_twice
    (i j : hostapd_iface F) (c : hostapd_channel_data F) :
  lowest_nf j = lowest_nf i ->
  acs_survey_chan_interference_factor j
    (acs_survey_chan_interference_factor i c)
  = acs_survey_chan_interference_factor i c.
Proof.
  intros Hnf. unfold acs_survey_chan_interference_factor.
  destruct (survey_list c) eqn:E; [now rewrite E|].
  destruct (has_flag (flag c) HOSTAPD_CHAN_DISABLED) eqn:D; simpl.
  - now rewrite E, D.
  - rewrite E, D, Hnf. reflexivity.
Qed.

(** X6.  acs_survey_all_chans_intereference_factor run twice gives what
    one run gives.  It changes no survey list, flag, frequency, channel
    number or [min_nf], keeps the configuration, and leaves a channel
    that is disabled or has no survey exactly as it was, stale factor
    included. *)
Theorem acs_scoring_idempotent_and_frame (i : hostapd_iface F) :
  let scored := acs_survey_all_chans_intereference_factor i in
  acs_survey_all_chans_intereference_factor scored = scored /\
  conf scored = conf i /\
  map survey_list (channels (current_mode scored))
    = map survey_list (channels (current_mode i)) /\
  map flag (channels (current_mode scored))
    = map flag (channels (current_mode i)) /\
  map freq (channels (current_mode scored))
    = map freq (channels (current_mode i)) /\
  map chan (channels (current_mode scored))
    = map chan (channels (current_mode i)) /\
  map min_nf (channels (current_mode scored))
    = map min_nf (channels (current_mode i)) /\
  (forall k c, nth_error (channels (current_mode i)) k = Some c ->
     acs_usable_chan c = false ->
     nth_error (channels (current_mode scored)) k = Some c).
Proof.
  assert (Husable : forall c,
            acs_usable_chan (acs_survey_chan_interference_factor i c)
            = acs_usable_chan c).
  { intros c.
    destruct (acs_survey_chan_interference_factor_frame i c)
      as [_ [_ [Hfl [Hsl _]]]].
    unfold acs_usable_chan. now rewrite Hfl, Hsl. }
  assert (Hframe : forall c,
            let c' := if acs_usable_chan c
                      then acs_survey_chan_interference_factor i c else c in
            chan c' = chan c /\ freq c' = freq c /\ flag c' = flag c /\
            survey_list c' = survey_list c /\ min_nf c' = min_nf c).
  { intros c. destruct (acs_usable_chan c);
      [apply acs_survey_chan_interference_factor_frame|repeat split]. }
  intros scored. subst scored.
  unfold acs_survey_all_chans_intereference_factor.
  split.
  { unfold set_channels. cbn [current_mode channels mode conf chans_surveyed
                              lowest_nf scan_cb].
    rewrite map_map. do 2 f_equal.
    apply map_ext. intros c.
    destruct (acs_usable_chan c) eqn:U.
    - rewrite Husable, U.
      now apply acs_survey_chan_interference_factor_twice.
    - now rewrite U. }
  split; [reflexivity|].
  cbn [set_channels current_mode channels].
  rewrite !map_map.
  split; [apply map_ext; intros c; apply (Hframe c)|].
  split; [apply map_ext; intros c; apply (Hframe c)|].
  split; [apply map_ext; intros c; apply (Hframe c)|].
  split; [apply map_ext; intros c; apply (Hframe c)|].
  split; [apply map_ext; intros c; apply (Hframe c)|].
  intros k c Hk Hu. rewrite nth_error_map, Hk. simpl.
  now rewrite Hu.
Qed.

(** ** The study step *)

Ltac unfold_run :=
  unfold acs_scan_complete, acs_study, acs_study_commit,
    acs_study_set_channel, acs_study_options, acs_study_survey_based,
    acs_adjust_vht_sec_chan, acs_init, acs_request_scan, acs_fail,
    wpa_printf, bind, ret, emit, get_iface, put_iface.

Ltac split_cases :=
  repeat match goal with
  | |- context [hostapd_driver_scan ?a ?b] =>
      destruct (hostapd_driver_scan a b) eqn:?; simpl
  | |- context [hostapd_drv_get_survey ?a] =>
      destruct (hostapd_drv_get_survey a) eqn:?; simpl
  | |- context [hostapd_acs_completed ?a] =>
      destruct (hostapd_acs_completed a) eqn:?; simpl
  | |- context [if ?b then _ else _] => destruct b eqn:?; simpl
  | |- context [match ?o with Some _ => _ | None => _ end] =>
      destruct o as [[? ?]|] eqn:?; simpl
  end.

(** X7.  acs_study_options returns 0 or -1.  It returns 0 exactly when
    [chans_surveyed] is not 0 and the surveys are sufficient, and then
    the interface is the scored one; when it returns -1 the interface is
    untouched: no factor has been computed. *)
Theorem acs_study_options_outcome (s : acs_state F) :
  let r := acs_study_options s in
  (fst r = 0 \/ fst r = -1) /\
  (fst r = 0 <->
   chans_surveyed (st_iface s) <> 0 /\
   acs_surveys_are_sufficient (st_iface s) = true) /\
  (fst r = 0 ->
   st_iface (snd r) = acs_survey_all_chans_intereference_factor (st_iface s)) /\
  (fst r = -1 -> st_iface (snd r) = st_iface s).
Proof.
  unfold_run. unfold c_true. simpl.
  destruct (chans_surveyed (st_iface s) =? 0) eqn:E0; simpl.
  - apply Z.eqb_eq in E0.
    split; [now right|]. split; [|split]; try discriminate; auto.
    split; [discriminate|]. intros [Hne _]. contradiction.
  - apply Z.eqb_neq in E0.
    destruct (acs_surveys_are_sufficient (st_iface s)) eqn:E1; simpl.
    + split; [now left|]. split; [|split]; auto; try discriminate.
      split; auto.
    + split; [now right|]. split; [|split]; try discriminate; auto.
      split; [discriminate|]. intros [_ Habs]. discriminate.
Qed.

(** X8.  The assignment at the end of the selection writes the number of
    the ideal channel into [conf->channel] before
    acs_adjust_vht_sec_chan runs, so the centre-frequency index is
    derived from the new channel: channel + 2 for VHT_CHANWIDTH_USE_HT,
    channel + 6 for VHT_CHANWIDTH_80MHZ, and unchanged for any other
    width or when [ieee80211ac] is 0.  The mode, its channel table,
    [chans_surveyed], [lowest_nf], the callback and every other
    configuration field, [acs_chan_time_ms] included, are not
    touched. *)
Theorem acs_study_set_channel_writes
    (c : hostapd_channel_data F) (s : acs_state F) :
  let i := st_iface s in
  let i' := st_iface (snd (acs_study_set_channel c s)) in
  channel (conf i') = to_channel (chan c) /\
  current_mode i' = current_mode i /\
  chans_surveyed i' = chans_surveyed i /\
  ieee80211n (conf i') = ieee80211n (conf i) /\
  secondary_channel (conf i') = secondary_channel (conf i) /\
  ieee80211ac (conf i') = ieee80211ac (conf i) /\
  vht_oper_chwidth (conf i') = vht_oper_chwidth (conf i) /\
  acs_chan_time_ms (conf i') = acs_chan_time_ms (conf i) /\
  lowest_nf i' = lowest_nf i /\
  scan_cb i' = scan_cb i /\
  (ieee80211ac (conf i) = 0 ->
   vht_oper_centr_freq_seg0_idx (conf i')
   = vht_oper_centr_freq_seg0_idx (conf i)) /\
  (ieee80211ac (conf i) <> 0 ->
   vht_oper_chwidth (conf i) = VHT_CHANWIDTH_USE_HT ->
   vht_oper_centr_freq_seg0_idx (conf i')
   = to_vht_oper_centr_freq_seg0_idx (to_channel (chan c) + 2)) /\
  (ieee80211ac (conf i) <> 0 ->
   vht_oper_chwidth (conf i) <> VHT_CHANWIDTH_USE_HT ->
   vht_oper_chwidth (conf i) = VHT_CHANWIDTH_80MHZ ->
   vht_oper_centr_freq_seg0_idx (conf i')
   = to_vht_oper_centr_freq_seg0_idx (to_channel (chan c) + 6)) /\
  (ieee80211ac (conf i) <> 0 ->
   vht_oper_chwidth (conf i) <> VHT_CHANWIDTH_USE_HT ->
   vht_oper_chwidth (conf i) <> VHT_CHANWIDTH_80MHZ ->
   vht_oper_centr_freq_seg0_idx (conf i')
   = vht_oper_centr_freq_seg0_idx (conf i)).
Proof.
  unfold_run. unfold c_true. simpl.
  destruct (ieee80211ac (conf (st_iface s)) =? 0) eqn:Eac; simpl;
    [apply Z.eqb_eq in Eac|apply Z.eqb_neq in Eac;
     destruct (vht_oper_chwidth (conf (st_iface s)) =? VHT_CHANWIDTH_USE_HT)
       eqn:Eht; simpl;
     [apply Z.eqb_eq in Eht|apply Z.eqb_neq in Eht;
      destruct (vht_oper_chwidth (conf (st_iface s)) =? VHT_CHANWIDTH_80MHZ)
        eqn:E80; simpl;
      [apply Z.eqb_eq in E80|apply Z.eqb_neq in E80]]];
    repeat match goal with |- _ /\ _ => split end;
    intros; try reflexivity; contradiction.
Qed.

(** X9.  acs_study calls hostapd_acs_completed exactly when the study
    succeeds and a channel is selected: [chans_surveyed] is not 0, the
    surveys are sufficient and acs_find_ideal_chan, run on the scored
    table, returns a channel.  It never requests a scan and never
    fetches surveys. *)
Theorem acs_study_calls_completion_iff (s : acs_state F) :
  exists tr, st_trace (snd (acs_study s)) = st_trace s ++ tr /\
    (In ev_acs_completed tr <->
     chans_surveyed (st_iface s) <> 0 /\
     acs_surveys_are_sufficient (st_iface s) = true /\
     acs_find_ideal_chan
       (acs_survey_all_chans_intereference_factor (st_iface s)) <> None) /\
    (forall p, ~ In (ev_driver_scan p) tr) /\
    ~ In ev_drv_get_survey tr.
Proof.
  unfold_run. unfold c_true. simpl.
  destruct (chans_surveyed (st_iface s) =? 0) eqn:E0; simpl.
  { apply Z.eqb_eq in E0.
    rewrite <- ?app_assoc; simpl; eexists; split; [reflexivity|]; simpl.
    split; [split|split].
    - intros Hin. repeat (destruct Hin as [Hin|Hin]; try discriminate).
      contradiction.
    - intros [Hne _]. contradiction.
    - intros p Hin. repeat (destruct Hin as [Hin|Hin]; try discriminate).
      contradiction.
    - intros Hin. repeat (destruct Hin as [Hin|Hin]; try discriminate).
      contradiction. }
  apply Z.eqb_neq in E0.
  destruct (acs_surveys_are_sufficient (st_iface s)) eqn:E1; simpl.
  2:{ rewrite <- ?app_assoc; simpl; eexists; split; [reflexivity|]; simpl.
      split; [split|split].
      - intros Hin. repeat (destruct Hin as [Hin|Hin]; try discriminate).
        contradiction.
      - intros [_ [Habs _]]. discriminate.
      - intros p Hin. repeat (destruct Hin as [Hin|Hin]; try discriminate).
        contradiction.
      - intros Hin. repeat (destruct Hin as [Hin|Hin]; try discriminate).
        contradiction. }
  destruct (acs_find_ideal_chan
              (acs_survey_all_chans_intereference_factor (st_iface s)))
    as [[k c]|] eqn:E2; simpl.
  2:{ rewrite <- ?app_assoc; simpl; eexists; split; [reflexivity|]; simpl.
      split; [split|split].
      - intros Hin. repeat (destruct Hin as [Hin|Hin]; try discriminate).
        contradiction.
      - intros [_ [_ Habs]]. exfalso. now apply Habs.
      - intros p Hin. repeat (destruct Hin as [Hin|Hin]; try discriminate).
        contradiction.
      - intros Hin. repeat (destruct Hin as [Hin|Hin]; try discriminate).
        contradiction. }
  assert (Hrhs : chans_surveyed (st_iface s) <> 0 /\ true = true /\
                 Some (k, c) <> (None : option (chan_ptr F))).
  { split; [exact E0|]. split; [reflexivity|discriminate]. }
  split_cases;
    (rewrite <- ?app_assoc; simpl; eexists; split; [reflexivity|]; simpl;
     split; [split; [intros _; exact Hrhs|intros _; tauto]|split];
     [intros p Hin|intros Hin];
     repeat (destruct Hin as [Hin|Hin]; try discriminate); contradiction).
Qed.

(** ** The scan request *)

(** X10.  The frequency array acs_request_scan hands to the driver holds
    at most [num_channels + 1] entries (the size it allocates), ends
    with 0, and before that 0 lists the frequency of every channel that
    is not disabled and of no other channel; the dwell time is
    [acs_chan_time_ms]. *)
Theorem acs_scan_params_frequencies (i : hostapd_iface F) :
  let p := acs_scan_params i in
  chan_time p = acs_chan_time_ms (conf i) /\
  (List.length (freqs p) <= List.length (channels (current_mode i)) + 1)%nat /\
  (forall d, last (freqs p) d = 0) /\
  (forall c, In c (channels (current_mode i)) ->
     has_flag (flag c) HOSTAPD_CHAN_DISABLED = false ->
     In (freq c) (removelast (freqs p))) /\
  (forall f, In f (removelast (freqs p)) ->
     exists c, In c (channels (current_mode i)) /\
       has_flag (flag c) HOSTAPD_CHAN_DISABLED = false /\ freq c = f).
Proof.
  unfold acs_scan_params. cbn [chan_time freqs].
  split; [reflexivity|]. split; [|split; [|split]].
  - rewrite length_app, length_map. simpl.
    pose proof (filter_length_le
                  (fun c : hostapd_channel_data F =>
                     negb (has_flag (flag c) HOSTAPD_CHAN_DISABLED))
                  (channels (current_mode i))). lia.
  - intros d. apply last_last.
  - intros c Hc Hen. rewrite removelast_last. apply in_map.
    apply filter_In. split; [exact Hc|]. now rewrite Hen.
  - intros f Hf. rewrite removelast_last in Hf. apply in_map_iff in Hf.
    destruct Hf as [c [Hfc Hc]]. apply filter_In in Hc.
    destruct Hc as [Hc Hen]. exists c. split; [exact Hc|].
    split; [|exact Hfc].
    now destruct (has_flag (flag c) HOSTAPD_CHAN_DISABLED).
Qed.

(** X11.  acs_init resets the store and installs acs_scan_complete as
    the scan callback before it calls the driver, once, with the
    parameters of the reset table.  With [r] the driver's result it
    returns HOSTAPD_CHAN_INVALID for [r < 0], after printing the error
    and resetting the store again, and HOSTAPD_CHAN_ACS otherwise, with
    the interface as the driver left it; it never runs acs_fail. *)
Theorem acs_init_outcome (s : acs_state F) :
  let i0 := set_scan_cb (acs_cleanup (st_iface s)) cb_acs_scan_complete in
  let p := acs_scan_params (acs_cleanup (st_iface s)) in
  let r := fst (hostapd_driver_scan i0 p) in
  let i' := snd (hostapd_driver_scan i0 p) in
  survey_store_clean i0 /\ chans_surveyed i0 = 0 /\
  scan_cb i0 = cb_acs_scan_complete /\
  acs_init s =
  (if r <? 0 then HOSTAPD_CHAN_INVALID else HOSTAPD_CHAN_ACS,
   {| st_iface := if r <? 0 then acs_cleanup i' else i';
      st_trace :=
        st_trace s ++
        [ev_printf MSG_INFO
           "ACS: Automatic channel selection started, this may take a bit";
         ev_driver_scan p] ++
        (if r <? 0
         then [ev_printf MSG_ERROR "ACS: Failed to request initial scan"]
         else []) |}).
Proof.
  intros i0 p r i'. subst i0 p r i'.
  split; [apply (acs_cleanup_clean (st_iface s))|].
  split; [reflexivity|]. split; [reflexivity|].
  unfold_run. simpl.
  destruct (hostapd_driver_scan _ _) as [r i'] eqn:E. simpl.
  destruct (r <? 0); simpl; rewrite <- ?app_assoc; reflexivity.
Qed.

(** ** A complete successful run *)

Lemma acs_study_set_channel_iface
    (c : hostapd_channel_data F) (s : acs_state F) :
  st_iface (snd (acs_study_set_channel c s))
  = st_iface (snd (acs_study_set_channel c
                     {| st_iface := st_iface s; st_trace := [] |})).
Proof. unfold_run. simpl. split_cases; reflexivity. Qed.

Lemma acs_study_set_channel_trace
    (c : hostapd_channel_data F) (s : acs_state F) :
  exists tr, st_trace (snd (acs_study_set_channel c s)) = st_trace s ++ tr /\
    ~ In fail_line tr /\ ~ In ev_acs_completed tr.
Proof.
  unfold_run. simpl. unfold fail_line.
  split_cases;
    try (exists []; rewrite app_nil_r; split; [reflexivity|];
         split; intros []);
    (eexists; rewrite <- ?app_assoc; split; [reflexivity|]; simpl;
     split; intros Hin;
     repeat (destruct Hin as [Hin|Hin]; try discriminate); contradiction).
Qed.

(** X12.  A run that meets no error commits the selected channel: when
    the driver delivers the surveys ([err == 0]), at least one channel
    was surveyed, the surveys are sufficient, acs_find_ideal_chan
    returns [c] on the scored table and hostapd_acs_completed, called
    with [c]'s number written in the configuration, returns
    HOSTAPD_CHAN_VALID, acs_scan_complete ends with the store reset on
    the interface that call left, without running acs_fail. *)
Theorem acs_scan_complete_commits
    (s : acs_state F) (i1 i3 : hostapd_iface F) (k : nat)
    (c : hostapd_channel_data F) :
  hostapd_drv_get_survey (st_iface s) = (0, i1) ->
  chans_surveyed i1 <> 0 ->
  acs_surveys_are_sufficient i1 = true ->
  acs_find_ideal_chan (acs_survey_all_chans_intereference_factor i1)
  = Some (k, c) ->
  let i2 := st_iface (snd (acs_study_set_channel c
                {| st_iface := acs_survey_all_chans_intereference_factor i1;
                   st_trace := [] |})) in
  hostapd_acs_completed i2 = (HOSTAPD_CHAN_VALID, i3) ->
  channel (conf i2) = to_channel (chan c) /\
  st_iface (snd (acs_scan_complete s)) = acs_cleanup i3 /\
  exists tr, st_trace (snd (acs_scan_complete s)) = st_trace s ++ tr /\
    In ev_acs_completed tr /\ ~ In fail_line tr.
Proof.
  intros Hdrv Hsurv Hsuff Hsel i2 Hdone.
  split.
  { subst i2. clear. unfold_run. simpl. split_cases; reflexivity. }
  unfold acs_scan_complete, bind, get_iface, emit, put_iface, wpa_printf, ret.
  simpl. rewrite Hdrv. simpl.
  unfold acs_study, acs_study_options, acs_study_survey_based.
  unfold bind, wpa_printf, emit, get_iface, put_iface, ret. simpl.
  unfold c_true. apply Z.eqb_neq in Hsurv. rewrite Hsurv, Hsuff. simpl.
  rewrite Hsel.
  match goal with
  | |- context [acs_study_commit c ?s0] => set (s1 := s0)
  end.
  unfold acs_study_commit, bind, get_iface, emit, put_iface.
  destruct (acs_study_set_channel c s1) as [[] s2] eqn:E2.
  pose proof (acs_study_set_channel_iface c s1) as Hi.
  pose proof (acs_study_set_channel_trace c s1) as [tr [Htr [Hnf Hnc]]].
  rewrite E2 in Hi, Htr. simpl in Hi, Htr.
  subst i2. simpl in Hdone. simpl. rewrite Hi, Hdone. simpl.
  rewrite Z.eqb_refl. simpl. split; [reflexivity|].
  rewrite Htr. subst s1. simpl. rewrite <- !app_assoc. simpl.
  eexists. split; [reflexivity|]. split.
  - simpl. right. right. right. apply in_or_app. right. now left.
  - simpl. unfold fail_line in *. intros Hin.
    repeat (destruct Hin as [Hin|Hin]; try discriminate).
    apply in_app_or in Hin. destruct Hin as [Hin|Hin]; [now apply Hnf|].
    repeat (destruct Hin as [Hin|Hin]; try discriminate). contradiction.
Qed.

(** X17.  acs_study fails without writing a channel when no channel was
    surveyed, when a record of an enabled channel is insufficient, or
    when acs_find_ideal_chan finds no channel on the scored table: the
    configuration is unchanged, the store is reset, acs_fail has run and
    hostapd_acs_completed has not been called.  In the first two cases
    no factor has been computed: the interface is the reset of the one
    acs_study started from. *)
Theorem acs_study_failure_leaves_conf (s : acs_state F) :
  chans_surveyed (st_iface s) = 0 \/
  acs_surveys_are_sufficient (st_iface s) = false \/
  acs_find_ideal_chan
    (acs_survey_all_chans_intereference_factor (st_iface s)) = None ->
  conf (st_iface (snd (acs_study s))) = conf (st_iface s) /\
  survey_store_clean (st_iface (snd (acs_study s))) /\
  (exists tr, st_trace (snd (acs_study s)) = st_trace s ++ tr /\
     In fail_line tr /\ ~ In ev_acs_completed tr) /\
  (chans_surveyed (st_iface s) = 0 \/
   acs_surveys_are_sufficient (st_iface s) = false ->
   st_iface (snd (acs_study s)) = acs_cleanup (st_iface s)).
Proof.
  intros Hcase.
  assert (Htrace : forall (tr0 : list event) (e1 e2 : event),
            e1 <> ev_acs_completed -> e2 <> ev_acs_completed ->
            exists tr,
              (((tr0 ++ [ev_printf MSG_DEBUG "ACS: Trying survey-based ACS"])
                ++ [e1]) ++ [e2]) ++ [fail_line] = tr0 ++ tr /\
              In fail_line tr /\ ~ In ev_acs_completed tr).
  { intros tr0 e1 e2 H1 H2. rewrite <- !app_assoc. simpl.
    eexists. split; [reflexivity|]. split.
    - simpl. auto.
    - simpl. unfold fail_line. intros Hin.
      repeat (destruct Hin as [Hin|Hin]; try discriminate);
        try contradiction; congruence. }
  unfold_run. unfold c_true. simpl.
  destruct (chans_surveyed (st_iface s) =? 0) eqn:E0; simpl.
  { split; [reflexivity|]. split; [apply acs_cleanup_clean|].
    split; [|reflexivity].
    apply Htrace; discriminate. }
  apply Z.eqb_neq in E0.
  destruct (acs_surveys_are_sufficient (st_iface s)) eqn:E1; simpl.
  2:{ split; [reflexivity|]. split; [apply acs_cleanup_clean|].
      split; [|reflexivity].
      apply Htrace; discriminate. }
  destruct Hcase as [Hz|[Hi|Hsel]]; [contradiction|discriminate|].
  rewrite Hsel. simpl.
  split; [reflexivity|]. split; [apply acs_cleanup_clean|].
  split; [|intros [Hz|Hi]; [contradiction|discriminate]].
  rewrite <- !app_assoc. simpl. eexists. split; [reflexivity|]. split.
  - simpl. auto.
  - simpl. unfold fail_line. intros Hin.
    repeat (destruct Hin as [Hin|Hin]; try discriminate). contradiction.
Qed.

End AcsFurther.


(** * The theorems at the examples *)

Import Examples.

Lemma acs_survey_interference_factor_formula_example :
  acs_survey_interference_factor busy_survey (-100)
  = spec_score (F := R) busy_survey (-100) /\
  acs_survey_interference_factor idle_survey (-100) = 0%R.
Proof.
  split.
  - apply (proj1 (acs_survey_interference_factor_formula busy_survey (-100))).
    left. reflexivity.
  - exact (proj2 (acs_survey_interference_factor_formula idle_survey (-100))
             eq_refl eq_refl).
Defined.

Lemma acs_sufficiency_example :
  acs_survey_is_sufficient busy_survey = true /\
  acs_survey_is_sufficient idle_survey = false /\
  acs_surveys_are_sufficient overlapping_iface = true.
Proof.
  destruct (acs_sufficiency_characterised (F := R)) as [Hrec Htab].
  split; [|split].
  - apply Hrec. repeat split; auto.
  - destruct (acs_survey_is_sufficient idle_survey) eqn:E; [|reflexivity].
    apply Hrec in E. destruct E as [_ [_ [E|E]]]; discriminate.
  - apply Htab. intros c Hc Hen record Hr.
    simpl in Hc.
    destruct Hc as [<-|[<-|[<-|[<-|[]]]]]; try discriminate;
      destruct Hr as [<-|[]]; reflexivity.
Defined.

(** Against C2 as stated: with HT40- configured and a driver that accepts
    the request, acs_init submits the scan and does not report a
    failure. *)
Lemma acs_init_ht40minus_submits_scan :
  c_true (ieee80211n (conf ht40minus_iface)) = true /\
  secondary_channel (conf ht40minus_iface) = -1 /\
  fst (acs_init (X := accepting) (state_of ht40minus_iface))
    <> HOSTAPD_CHAN_INVALID /\
  In (ev_driver_scan {| chan_time := 20; freqs := [2412; 2437; 0] |})
     (st_trace (snd (acs_init (X := accepting) (state_of ht40minus_iface)))).
Proof.
  split; [reflexivity|]. split; [reflexivity|]. split.
  - vm_compute. discriminate.
  - vm_compute. right. left. reflexivity.
Qed.

Lemma acs_ht40minus_rejected_in_study_example :
  acs_find_ideal_chan ht40minus_iface = None /\
  conf (st_iface (snd (acs_study (X := accepting) (state_of ht40minus_iface))))
  = conf ht40minus_iface /\
  fst (acs_init (X := accepting) (state_of ht40minus_iface)) = HOSTAPD_CHAN_ACS.
Proof.
  destruct (acs_ht40minus_rejected_in_study (X := accepting)
              (state_of ht40minus_iface))
    as [Hnone [[Hconf _] [_ Hacc]]]; [reflexivity|reflexivity|].
  split; [exact Hnone|]. split; [exact Hconf|].
  apply (Hacc 0 (set_scan_cb (acs_cleanup ht40minus_iface) cb_acs_scan_complete));
    [reflexivity|lia].
Defined.

(** Against C3 as stated: a sufficient record with tx time above rx time
    (busy time absent) scores below [10^(nf/5)]. *)
Lemma acs_survey_interference_factor_below_floor :
  acs_survey_is_sufficient tx_heavy_survey = true /\
  ~ (spec_floor_term tx_heavy_survey
     <= acs_survey_interference_factor tx_heavy_survey (-100))%R.
Proof.
  split; [reflexivity|].
  cbv -[Rpower IZR Rplus Rminus Rmult Rdiv Rle].
  match goal with
  | |- context [Rpower 2 ?e] =>
      pose proof (Rpower_pos 2 e) as Hp; set (p := Rpower 2 e) in *
  end.
  lra.
Qed.

(** Over the real numbers, and in binary64 at a record with noise
    floor 0, time 10 and busy time 5: the score is 1.5 and the floor
    term is 1. *)
Lemma acs_survey_interference_factor_lower_bound_example :
  ld_le (spec_floor_term busy_survey)
        (acs_survey_interference_factor busy_survey (-100)) = true /\
  ld_le (LongDoubleCmp := Binary64.binary64_LongDoubleCmp)
    (spec_floor_term (LD := Binary64.binary64_LongDouble)
       Binary64.half_busy_survey)
    (acs_survey_interference_factor (LD := Binary64.binary64_LongDouble)
       Binary64.half_busy_survey 0) = true.
Proof.
  split.
  - apply acs_survey_interference_factor_lower_bound.
    + reflexivity.
    + reflexivity.
    + pose proof (Rpower_pos 10 (-100 / 5)) as Hp.
      cbv -[Rle_dec IZR Rdiv Rpower].
      destruct (Rle_dec 0 _) as [_|Hn]; [reflexivity|exfalso; lra].
    + reflexivity.
    + cbv -[Rle_dec IZR Rdiv].
      destruct (Rle_dec 0 (3 / 10)) as [_|Hn]; [reflexivity|exfalso; lra].
    + reflexivity.
    + pose proof (Rpower_pos 2 (Rpower 10 (-100 / 10) - Rpower 10 (-100 / 10)))
        as Hp.
      cbv -[Rle_dec IZR Rdiv Rpower Rminus].
      destruct (Rle_dec 0 _) as [_|Hn]; [reflexivity|exfalso; lra].
  - apply (acs_survey_interference_factor_lower_bound
             (LD := Binary64.binary64_LongDouble)
             (CMP := Binary64.binary64_LongDoubleCmp)
             (ARITH := binary64_LongDoubleArith Binary64.binary64_pow));
      vm_compute; reflexivity.
Defined.

Lemma acs_find_ideal_chan_skips_narrow_example :
  acs_find_ideal_chan ht40plus_iface
  <> Some (0%nat, chan_entry 1 2412 0 [busy_survey] 1%R).
Proof.
  apply (proj2 (acs_find_ideal_chan_skips_narrow ht40plus_iface 0
                  (chan_entry 1 2412 0 [busy_survey] 1%R))).
  - reflexivity.
  - intros c' Hc. simpl in Hc.
    destruct Hc as [<-|[<-|[]]]; simpl; lia.
Defined.

Lemma acs_find_ideal_chan_tie :
  acs_find_ideal_chan tie_iface = Some (0%nat, channel_36).
Proof.
  cbv -[Rlt_dec IZR].
  destruct (Rlt_dec 1 1) as [Habs|_]; [lra|reflexivity].
Qed.

(** The table of [Binary64.scored_iface] and what acs_find_ideal_chan
    returns for it. *)
Lemma acs_find_ideal_chan_nan_table :
  acs_surveys_are_sufficient Binary64.surveyed_iface = true /\
  channels (current_mode Binary64.scored_iface)
  = [Binary64.saturated_chan; Binary64.half_busy_chan] /\
  acs_find_ideal_chan (LD := Binary64.binary64_LongDouble)
    Binary64.scored_iface
  = Some (0%nat, Binary64.saturated_chan) /\
  acs_chan_factor (LD := Binary64.binary64_LongDouble)
    Binary64.scored_iface 1 Binary64.saturated_chan = Some PrimFloat.nan /\
  acs_chan_factor (LD := Binary64.binary64_LongDouble)
    Binary64.scored_iface 1 Binary64.half_busy_chan = Some 1.5%float.
Proof. repeat split; vm_compute; reflexivity. Qed.

(** In binary64 a record with more tx time than rx time scores below
    the floor term, as it does over the real numbers. *)
Lemma binary64_score_below_floor :
  acs_survey_is_sufficient Binary64.tx_heavy_survey = true /\
  spec_floor_term (LD := Binary64.binary64_LongDouble)
    Binary64.tx_heavy_survey = PrimFloat.one /\
  PrimFloat.ltb
    (acs_survey_interference_factor (LD := Binary64.binary64_LongDouble)
       Binary64.tx_heavy_survey 0)
    PrimFloat.one = true.
Proof. repeat split; vm_compute; reflexivity. Qed.

(** Against C5 as stated, in binary64 arithmetic: the first channel has a
    sufficient record with time, busy time and tx time all equal, so its
    score is 0/0, a NaN; acs_find_ideal_chan keeps it although the
    second channel's total is 1.5, and the returned total does not
    compare [<=] to 1.5: it is not the minimum. *)
Lemma acs_find_ideal_chan_keeps_nan :
  acs_surveys_are_sufficient Binary64.surveyed_iface = true /\
  channels (current_mode Binary64.scored_iface)
  = [Binary64.saturated_chan; Binary64.half_busy_chan] /\
  acs_find_ideal_chan (LD := Binary64.binary64_LongDouble)
    Binary64.scored_iface
  = Some (0%nat, Binary64.saturated_chan) /\
  acs_chan_factor (LD := Binary64.binary64_LongDouble)
    Binary64.scored_iface 1 Binary64.saturated_chan = Some PrimFloat.nan /\
  acs_chan_factor (LD := Binary64.binary64_LongDouble)
    Binary64.scored_iface 1 Binary64.half_busy_chan = Some 1.5%float /\
  ld_le (LongDoubleCmp := Binary64.binary64_LongDoubleCmp)
    PrimFloat.nan 1.5%float = false /\
  ld_le (LongDoubleCmp := Binary64.binary64_LongDoubleCmp)
    1.5%float 1.5%float = true.
Proof. repeat split; vm_compute; reflexivity. Qed.

(** In binary64, two channels whose totals are both 1.5. *)
Lemma acs_find_ideal_chan_level :
  acs_find_ideal_chan (LD := Binary64.binary64_LongDouble)
    Binary64.level_iface
  = Some (0%nat, Binary64.level_chan).
Proof. vm_compute. reflexivity. Qed.

Lemma totals_comparable_level :
  totals_comparable (LD := Binary64.binary64_LongDouble)
    (CMP := Binary64.binary64_LongDoubleCmp) Binary64.level_iface
    (acs_n_chans (conf Binary64.level_iface))
    (channels (current_mode Binary64.level_iface)).
Proof.
  intros c1 c2 t1 t2 H1 H2 Hf1 Hf2. simpl in H1, H2.
  destruct H1 as [<-|[<-|[]]]; destruct H2 as [<-|[<-|[]]];
    vm_compute in Hf1, Hf2; injection Hf1 as <-; injection Hf2 as <-;
    left; vm_compute; reflexivity.
Qed.

(** At the real numbers with two equal totals; in binary64 at the table
    whose first total is a NaN; in binary64 with two equal totals, where
    the totals compare and the first is the least. *)
Lemma acs_find_ideal_chan_first_minimum_example :
  (exists t : R,
     first_least tie_iface (acs_n_chans (conf tie_iface))
       (channels (current_mode tie_iface)) (Some (0%nat, channel_36)) t) /\
  (exists t : float,
     first_least (LD := Binary64.binary64_LongDouble)
       (CMP := Binary64.binary64_LongDoubleCmp) Binary64.scored_iface
       (acs_n_chans (conf Binary64.scored_iface))
       (channels (current_mode Binary64.scored_iface))
       (Some (0%nat, Binary64.saturated_chan)) t) /\
  (exists t : float,
     acs_chan_factor (LD := Binary64.binary64_LongDouble)
       Binary64.level_iface 1 Binary64.level_chan = Some t /\
     ld_le (LongDoubleCmp := Binary64.binary64_LongDoubleCmp) t 1.5%float
     = true).
Proof.
  split; [|split].
  - destruct (proj1 (acs_find_ideal_chan_first_minimum tie_iface) 0%nat
                channel_36 acs_find_ideal_chan_tie) as [t [Hleast _]].
    exists t. exact Hleast.
  - destruct (proj1 (acs_find_ideal_chan_first_minimum
                       (LD := Binary64.binary64_LongDouble)
                       (CMP := Binary64.binary64_LongDoubleCmp)
                       (ORD := binary64_LongDoubleOrder Binary64.binary64_pow)
                       Binary64.scored_iface)
                0%nat Binary64.saturated_chan
                (proj1 (proj2 (proj2 acs_find_ideal_chan_nan_table))))
      as [t [Hleast _]].
    exists t. exact Hleast.
  - destruct (proj1 (acs_find_ideal_chan_first_minimum
                       (LD := Binary64.binary64_LongDouble)
                       (CMP := Binary64.binary64_LongDoubleCmp)
                       (ORD := binary64_LongDoubleOrder Binary64.binary64_pow)
                       Binary64.level_iface)
                0%nat Binary64.level_chan acs_find_ideal_chan_level)
      as [t [[_ [Hf _]] Hmin]].
    exists t. split; [exact Hf|].
    exact (proj1 (Hmin totals_comparable_level 1%nat Binary64.half_busy_chan
                    1.5%float eq_refl eq_refl)).
Defined.

Lemma acs_terminal_states_clean_example :
  survey_store_clean
    (st_iface (snd (acs_init (X := refusing) (state_of ht40plus_iface)))) /\
  survey_store_clean
    (st_iface (snd (acs_request_scan (X := refusing) (state_of ht40plus_iface)))).
Proof.
  destruct (acs_terminal_states_clean (X := refusing))
    as [_ [_ [_ [Hscan Hinit]]]].
  split.
  - apply Hinit; [discriminate|reflexivity].
  - apply Hscan. reflexivity.
Defined.

Lemma acs_study_commit_outcomes_example :
  st_trace (snd (acs_study_commit (X := looping) channel_1
                   (state_of overlapping_iface)))
  = [ev_acs_completed; rejected_line; fail_line] /\
  st_trace (snd (acs_study_commit (X := accepting) channel_1
                   (state_of overlapping_iface)))
  = [ev_acs_completed] /\
  survey_store_clean
    (st_iface (snd (acs_study_commit (X := looping) channel_1
                      (state_of overlapping_iface)))).
Proof.
  assert (Hne : 2 <> HOSTAPD_CHAN_VALID) by discriminate.
  destruct (acs_study_commit_outcomes (X := looping) channel_1
              (state_of overlapping_iface) 2 _ eq_refl)
    as [Hclean [_ [_ [_ Hfail]]]].
  destruct (acs_study_commit_outcomes (X := accepting) channel_1
              (state_of overlapping_iface) 0 _ eq_refl)
    as [_ [_ [_ [Hvalid _]]]].
  split; [exact (proj1 (Hfail Hne))|].
  split; [exact (proj1 (Hvalid eq_refl))|exact Hclean].
Defined.

Lemma acs_scan_complete_retrieval_error_example :
  survey_store_clean
    (st_iface (snd (acs_scan_complete (X := refusing)
                      (state_of overlapping_iface)))) /\
  conf (st_iface (snd (acs_scan_complete (X := refusing)
                         (state_of overlapping_iface))))
  = conf overlapping_iface.
Proof.
  destruct (acs_scan_complete_retrieval_error (X := refusing)
              (state_of overlapping_iface) (-1) overlapping_iface eq_refl)
    as [Hclean [_ [Hconf _]]]; [discriminate|].
  split; [exact Hclean|exact Hconf].
Defined.

Lemma acs_chan_factor_adjacent_2ghz_example :
  acs_chan_factor overlapping_iface 1 channel_1 = Some (1 + 2 + 4)%R.
Proof.
  destruct (acs_chan_factor_adjacent_2ghz overlapping_iface channel_1)
    as [_ [H20 _]]; [right; reflexivity|].
  etransitivity; [exact (H20 eq_refl eq_refl)|reflexivity].
Defined.

(** * The further properties at the examples *)

Import MoreExamples.

Lemma acs_cleanup_keeps_disabled_example :
  freqs (acs_scan_params (acs_cleanup overlapping_iface))
  = freqs (acs_scan_params overlapping_iface).
Proof. exact (proj2 (acs_cleanup_keeps_disabled overlapping_iface eq_refl)). Defined.

Lemma acs_find_ideal_chan_usable_only_example :
  acs_find_ideal_chan unusable_iface = None /\
  has_flag (flag channel_36) HOSTAPD_CHAN_DISABLED = false.
Proof.
  split.
  - apply (proj1 (proj2 (acs_find_ideal_chan_usable_only unusable_iface))).
    intros c Hc. simpl in Hc.
    destruct Hc as [<-|[<-|[]]]; [right|left]; reflexivity.
  - apply (proj1 (acs_find_ideal_chan_usable_only tie_iface) 0%nat channel_36).
    apply acs_find_ideal_chan_tie.
Defined.

Lemma acs_find_ideal_chan_ht40_5ghz :
  acs_find_ideal_chan ht40_5ghz_iface = Some (0%nat, channel_36).
Proof. reflexivity. Qed.

Lemma acs_find_ideal_chan_ht40_primary_example : In (chan channel_36) allowed.
Proof.
  apply (acs_find_ideal_chan_ht40_primary ht40_5ghz_iface 0 channel_36).
  - reflexivity.
  - discriminate.
  - discriminate.
  - apply acs_find_ideal_chan_ht40_5ghz.
Defined.

Lemma acs_chan_factor_bonded_example :
  exists k1 a1,
    acs_find_chan ht40_5ghz_iface (freq channel_36 + 20) = Some (k1, a1) /\
    (1 + 1)%R = ld_add (survey_interference_factor channel_36)
                       (survey_interference_factor a1).
Proof.
  assert (Hb : mode (current_mode ht40_5ghz_iface) <> HOSTAPD_MODE_IEEE80211B)
    by discriminate.
  assert (Hg : mode (current_mode ht40_5ghz_iface) <> HOSTAPD_MODE_IEEE80211G)
    by discriminate.
  exact (proj1 (proj2 (acs_chan_factor_bonded ht40_5ghz_iface 2 channel_36
                         (1 + 1)%R Hb Hg eq_refl)) eq_refl).
Defined.

Lemma acs_scoring_idempotent_and_frame_example :
  nth_error
    (channels (current_mode
                 (acs_survey_all_chans_intereference_factor overlapping_iface)))
    3 = Some channel_4.
Proof.
  destruct (acs_scoring_idempotent_and_frame overlapping_iface)
    as [_ [_ [_ [_ [_ [_ [_ Hkeep]]]]]]].
  apply Hkeep; reflexivity.
Defined.

Lemma acs_study_options_outcome_example :
  fst (acs_study_options (state_of tie_iface)) = 0 /\
  st_iface (snd (acs_study_options (state_of insufficient_iface)))
  = insufficient_iface.
Proof.
  split.
  - apply (proj1 (proj2 (acs_study_options_outcome (state_of tie_iface)))).
    split; [discriminate|reflexivity].
  - apply (proj2 (proj2 (proj2
             (acs_study_options_outcome (state_of insufficient_iface))))).
    reflexivity.
Defined.

Lemma acs_study_set_channel_writes_example :
  vht_oper_centr_freq_seg0_idx
    (conf (st_iface (snd (acs_study_set_channel channel_36
                            (state_of vht80_iface))))) = 42.
Proof.
  destruct (acs_study_set_channel_writes channel_36 (state_of vht80_iface))
    as [_ [_ [_ [_ [_ [_ [_ [_ [_ [_ [_ [_ [H80 _]]]]]]]]]]]]].
  apply H80; [discriminate|discriminate|reflexivity].
Defined.

Lemma acs_find_ideal_chan_scored_tie :
  acs_find_ideal_chan (acs_survey_all_chans_intereference_factor tie_iface)
  = Some (0%nat, acs_survey_chan_interference_factor tie_iface channel_36).
Proof.
  cbv -[Rlt_dec IZR Rpower Rplus Rminus Rmult Rdiv].
  match goal with
  | |- context [Rlt_dec ?x ?y] => destruct (Rlt_dec x y) as [Habs|_]
  end; [lra|reflexivity].
Qed.

Lemma acs_study_calls_completion_iff_example :
  exists tr,
    st_trace (snd (acs_study (X := accepting) (state_of tie_iface)))
    = st_trace (state_of tie_iface) ++ tr /\
    In ev_acs_completed tr.
Proof.
  destruct (acs_study_calls_completion_iff (X := accepting) (state_of tie_iface))
    as [tr [Htr [Hiff _]]].
  exists tr. split; [exact Htr|]. apply Hiff.
  split; [discriminate|]. split; [reflexivity|].
  simpl st_iface. rewrite acs_find_ideal_chan_scored_tie. discriminate.
Defined.

Lemma acs_scan_params_frequencies_example :
  In 2412 (removelast (freqs (acs_scan_params overlapping_iface))) /\
  ~ In 2427 (removelast (freqs (acs_scan_params overlapping_iface))).
Proof.
  destruct (acs_scan_params_frequencies overlapping_iface)
    as [_ [_ [_ [Hin Hout]]]].
  split.
  - apply (Hin channel_1); [left; reflexivity|reflexivity].
  - intros Habs. destruct (Hout 2427 Habs) as [c [Hc [Hen Hf]]].
    simpl in Hc.
    destruct Hc as [<-|[<-|[<-|[<-|[]]]]]; discriminate.
Defined.

Lemma acs_scan_complete_commits_example :
  channel (conf (st_iface (snd (acs_scan_complete (X := accepting)
                                  (state_of tie_iface))))) = 36.
Proof.
  destruct (acs_scan_complete_commits (X := accepting) (state_of tie_iface)
              tie_iface
              (st_iface (snd (acs_study_set_channel
                 (acs_survey_chan_interference_factor tie_iface channel_36)
                 {| st_iface := acs_survey_all_chans_intereference_factor tie_iface;
                    st_trace := [] |})))
              0 (acs_survey_chan_interference_factor tie_iface channel_36))
    as [Hchan [Hfinal _]].
  - reflexivity.
  - discriminate.
  - reflexivity.
  - apply acs_find_ideal_chan_scored_tie.
  - reflexivity.
  - rewrite Hfinal. rewrite acs_cleanup_conf. exact Hchan.
Defined.

(** At the real numbers with two equal factors, and in binary64 at the
    table whose first factor is a NaN. *)
Lemma acs_find_ideal_chan_lowest_factor_example :
  ld_lt (survey_interference_factor (chan_entry 40 5200 0 [busy_survey] 1%R))
        (survey_interference_factor channel_36) = false /\
  ld_lt (LongDouble := Binary64.binary64_LongDouble)
        (survey_interference_factor Binary64.half_busy_chan)
        (survey_interference_factor Binary64.saturated_chan) = false.
Proof.
  assert (Hb : mode (current_mode tie_iface) <> HOSTAPD_MODE_IEEE80211B)
    by discriminate.
  assert (Hg : mode (current_mode tie_iface) <> HOSTAPD_MODE_IEEE80211G)
    by discriminate.
  assert (Hb' : mode (current_mode Binary64.scored_iface)
                <> HOSTAPD_MODE_IEEE80211B) by discriminate.
  assert (Hg' : mode (current_mode Binary64.scored_iface)
                <> HOSTAPD_MODE_IEEE80211G) by discriminate.
  split.
  - exact (proj1 (proj1 (acs_find_ideal_chan_lowest_factor tie_iface 0
                           channel_36 Hb Hg eq_refl acs_find_ideal_chan_tie)
                    1%nat (chan_entry 40 5200 0 [busy_survey] 1%R)
                    eq_refl eq_refl)).
  - exact (proj1 (proj1 (acs_find_ideal_chan_lowest_factor
                           (LD := Binary64.binary64_LongDouble)
                           (CMP := Binary64.binary64_LongDoubleCmp)
                           (ORD := binary64_LongDoubleOrder
                                     Binary64.binary64_pow)
                           Binary64.scored_iface 0 Binary64.saturated_chan
                           Hb' Hg' eq_refl
                           (proj1 (proj2 (proj2
                              acs_find_ideal_chan_nan_table))))
                    1%nat Binary64.half_busy_chan eq_refl eq_refl)).
Defined.

Lemma acs_study_failure_leaves_conf_example :
  conf (st_iface (snd (acs_study (X := accepting)
                         (state_of insufficient_iface))))
  = conf insufficient_iface /\
  st_iface (snd (acs_study (X := accepting) (state_of insufficient_iface)))
  = acs_cleanup insufficient_iface.
Proof.
  destruct (acs_study_failure_leaves_conf (X := accepting)
              (state_of insufficient_iface)) as [Hconf [_ [_ Hsame]]].
  - right. left. reflexivity.
  - split; [exact Hconf|]. apply Hsame. right. reflexivity.
Defined.
